(** * my-collection-xix: the gallery server (server.js)

  A shallow embedding of the flat-file post store, the stats aggregator,
  the gallery HTTP handlers and the Telegram upload conversation, with the
  properties of the specification stated and proved over it.

  Conventions of the embedding.
  - JavaScript strings are [string]s whose characters are the code units
    0..255; on these [trim], [toLowerCase], [split] and [parseInt] below
    follow ECMAScript.
  - JavaScript numbers that the program uses as counters, identifiers,
    timestamps and indices are integers ([Z]); [jsnum] adds NaN and the
    two infinities. What [parseInt] and the arithmetic on its results
    compute is rounded to the nearest double, ties to even, and becomes
    an infinity beyond the range of doubles ([JsNumber.of_integer]).
    The sign of a zero is not tracked.
  - A file's text is kept up to JSON equivalence: it is either not JSON
    at all or the serialisation of a [json] value, so [JSON_stringify]
    followed by [JSON_parse] is the identity.
  - [console.log] and [console.error] are not modelled. *)

From Stdlib Require Import ZArith Lia Ascii String Sorted Permutation.
From stdpp Require Import base list strings.

Local Open Scope string_scope.
Local Open Scope Z_scope.

(** ** JavaScript strings *)

Module JsString.

(** WhiteSpace and LineTerminator code units below 256: TAB, LF, VT, FF,
    CR, SP and NBSP. *)
Definition isWhiteSpace (c : ascii) : bool :=
  let n := nat_of_ascii c in
  ((n =? 9) || (n =? 10) || (n =? 11) || (n =? 12) || (n =? 13)
   || (n =? 32) || (n =? 160))%nat.

Fixpoint trimStart (s : string) : string :=
  match s with
  | EmptyString => EmptyString
  | String c r => if isWhiteSpace c then trimStart r else s
  end.

Definition isEmpty (s : string) : bool :=
  match s with EmptyString => true | String _ _ => false end.

Fixpoint trimEnd (s : string) : string :=
  match s with
  | EmptyString => EmptyString
  | String c r =>
      let r' := trimEnd r in
      if isWhiteSpace c && isEmpty r' then EmptyString else String c r'
  end.

(** [String.prototype.trim] *)
Definition trim (s : string) : string := trimEnd (trimStart s).

Definition lowerChar (c : ascii) : ascii :=
  let n := nat_of_ascii c in
  if ((65 <=? n) && (n <=? 90))%nat then ascii_of_nat (n + 32)
  else if ((192 <=? n) && (n <=? 222) && negb (n =? 215))%nat
       then ascii_of_nat (n + 32)
       else c.

(** [String.prototype.toLowerCase] *)
Fixpoint toLowerCase (s : string) : string :=
  match s with
  | EmptyString => EmptyString
  | String c r => String (lowerChar c) (toLowerCase r)
  end.

(** [s.split(sep)] for a one-character separator: never the empty list. *)
Fixpoint split (sep : ascii) (s : string) : list string :=
  match s with
  | EmptyString => [EmptyString]
  | String c r =>
      if Ascii.eqb c sep then EmptyString :: split sep r
      else match split sep r with
           | h :: t => String c h :: t
           | [] => [String c EmptyString]
           end
  end.

(** [parts.join(sep)] *)
Fixpoint join (sep : string) (parts : list string) : string :=
  match parts with
  | [] => EmptyString
  | [x] => x
  | x :: rest => x ++ sep ++ join sep rest
  end.

(** [s.startsWith(p)] for a one-character [p] *)
Definition startsWithChar (p : ascii) (s : string) : bool :=
  match s with
  | String c _ => Ascii.eqb c p
  | EmptyString => false
  end.

(** [x || d] on a string that may be [undefined]: the empty string is
    falsy too. *)
Definition orElse (x : option string) (d : string) : string :=
  match x with
  | Some s => if isEmpty s then d else s
  | None => d
  end.

End JsString.

(** ** JavaScript numbers *)

Inductive jsnum : Type :=
| NaN
| Infinity (negative : bool)
| Num (z : Z).

Module JsNumber.

(** The double nearest to the integer [m >= 0], ties to even: an integer
    of more than 53 bits keeps its 53 leading bits, rounded on the bits
    it drops. *)
Definition round_to_double (m : Z) : Z :=
  let bits := Z.log2 m + 1 in
  if bits <=? 53 then m
  else
    let shift := bits - 53 in
    let q := Z.shiftr m shift in
    let r := m - Z.shiftl q shift in
    let half := Z.shiftl 1 (shift - 1) in
    let q' := if (half <? r) || ((r =? half) && Z.odd q) then q + 1 else q in
    Z.shiftl q' shift.

(** The Number value of a mathematical integer: the nearest double, and
    an infinity when that is 2^1024 or more in magnitude. *)
Definition of_integer (m : Z) : jsnum :=
  let a := round_to_double (Z.abs m) in
  if 2 ^ 1024 <=? a then Infinity (m <? 0) else Num (Z.sgn m * a).

Definition add (a b : jsnum) : jsnum :=
  match a, b with
  | Num x, Num y => of_integer (x + y)
  | Infinity s, Num _ | Num _, Infinity s => Infinity s
  | Infinity s, Infinity t => if Bool.eqb s t then Infinity s else NaN
  | _, _ => NaN
  end.

Definition neg (a : jsnum) : jsnum :=
  match a with
  | NaN => NaN
  | Infinity s => Infinity (negb s)
  | Num x => Num (- x)
  end.

Definition sub (a b : jsnum) : jsnum := add a (neg b).

Definition mul (a b : jsnum) : jsnum :=
  match a, b with
  | Num x, Num y => of_integer (x * y)
  | Infinity s, Num y | Num y, Infinity s =>
      if y =? 0 then NaN else Infinity (xorb s (y <? 0))
  | Infinity s, Infinity t => Infinity (xorb s t)
  | _, _ => NaN
  end.

(** [Math.ceil(n / d)] for an array length [n]. *)
Definition ceil_div (n : Z) (d : jsnum) : jsnum :=
  match d with
  | NaN => NaN
  | Infinity _ => Num 0
  | Num 0 => if n =? 0 then NaN else Infinity false
  | Num d => Num (- ((- n) / d))
  end.

(** Value of a digit in the given radix. *)
Definition digitValue (radix : Z) (c : ascii) : option Z :=
  let n := Z.of_nat (nat_of_ascii c) in
  let v := if (48 <=? n) && (n <=? 57) then n - 48
           else if (97 <=? n) && (n <=? 122) then n - 87
           else if (65 <=? n) && (n <=? 90) then n - 55
           else radix in
  if v <? radix then Some v else None.

(** The longest prefix of radix digits, read left to right; [None] when
    no digit was read. *)
Fixpoint readDigits (radix : Z) (s : string) (acc : option Z) : option Z :=
  match s with
  | EmptyString => acc
  | String c r =>
      match digitValue radix c with
      | Some v => readDigits radix r (Some (radix * (default 0 acc) + v))
      | None => acc
      end
  end.

(** A leading minus or plus sign. *)
Definition stripSign (s : string) : Z * string :=
  match s with
  | String c r =>
      if Ascii.eqb c "-" then (-1, r)
      else if Ascii.eqb c "+" then (1, r)
      else (1, s)
  | EmptyString => (1, s)
  end.

(** A leading 0x or 0X selects radix 16; the radix is 10 otherwise. *)
Definition stripHexPrefix (s : string) : Z * string :=
  match s with
  | String c (String d r) =>
      if Ascii.eqb c "0" && (Ascii.eqb d "x" || Ascii.eqb d "X")
      then (16, r)
      else (10, s)
  | _ => (10, s)
  end.

(** [parseInt(s)] with no radix argument. *)
Definition parseInt (s : string) : jsnum :=
  let '(sign, s1) := stripSign (JsString.trimStart s) in
  let '(radix, s2) := stripHexPrefix s1 in
  match readDigits radix s2 None with
  | Some m => of_integer (sign * m)
  | None => NaN
  end.

End JsNumber.


#[global] Instance jsnum_eq_dec : EqDecision jsnum.
Proof. solve_decision. Defined.

(** [Array.prototype.slice(start, end)]: a relative index is clamped to
    the array, NaN counts as 0, a negative index counts from the end. *)
Definition relativeIndex (len : Z) (n : jsnum) : Z :=
  match n with
  | NaN => 0
  | Infinity true => 0
  | Infinity false => len
  | Num k => if k <? 0 then Z.max (len + k) 0 else Z.min k len
  end.

Definition slice {A : Type} (l : list A) (start end_ : jsnum) : list A :=
  let len := Z.of_nat (length l) in
  let k := relativeIndex len start in
  let final := relativeIndex len end_ in
  take (Z.to_nat (final - k)) (drop (Z.to_nat k) l).

(** ** Data model *)

Inductive media : Type := image | video.

(** A post record as the upload handlers build it. [created_at] is the
    instant the ISO-8601 string denotes, in milliseconds; [views] is
    [None] when the property is missing. *)
Record Post : Type := mkPost {
  post_id : Z;
  post_type : media;
  media_url : string;
  thumbnail : string;
  caption : string;
  description : string;
  author : string;
  created_at : Z;
  views : option Z;
  telegram_file_id : string;
  duration : option Z;
  width : option Z;
  height : option Z;
  file_size : option Z
}.

(** [post.description = d] *)
Definition set_description (d : string) (p : Post) : Post :=
  mkPost (post_id p) (post_type p) (media_url p) (thumbnail p) (caption p)
         d (author p) (created_at p) (views p) (telegram_file_id p)
         (duration p) (width p) (height p) (file_size p).

(** [post.views = v] *)
Definition set_views (v : Z) (p : Post) : Post :=
  mkPost (post_id p) (post_type p) (media_url p) (thumbnail p) (caption p)
         (description p) (author p) (created_at p) (Some v)
         (telegram_file_id p) (duration p) (width p) (height p) (file_size p).

(** [post.views || 0] *)
Definition views_or_0 (p : Post) : Z := default 0 (views p).

Record Stats : Type := mkStats {
  total_posts : Z;
  total_views : Z;
  last_update : Z
}.

(** The JSON values the two data files hold: an array of post records, a
    stats object, or any other value (which is not an array). *)
Inductive json : Type :=
| JArray (posts : list Post)
| JStats (stats : Stats)
| JOther.

Inductive text : Type :=
| NotJson
| JsonText (v : json).

(** ** Exceptions, state and the file system *)

Inductive exn : Type := ENOENT | EACCES | SyntaxError | TypeError | FetchError.

Inductive outcome (A : Type) : Type :=
| Return (a : A)
| Throw (e : exn).
Arguments Return {A} a.
Arguments Throw {A} e.

(** A computation over a mutable state [S] that returns or throws; what
    it changed before a throw stays changed. *)
Definition M (S A : Type) : Type := S -> outcome A * S.

Definition ret {S A : Type} (a : A) : M S A := fun s => (Return a, s).

Definition throw {S A : Type} (e : exn) : M S A := fun s => (Throw e, s).

Definition bind {S A B : Type} (m : M S A) (k : A -> M S B) : M S B :=
  fun s =>
    match m s with
    | (Return a, s') => k a s'
    | (Throw e, s') => (Throw e, s')
    end.

(** [try { m } catch (error) { h error }] *)
Definition try_catch {S A : Type} (m : M S A) (h : exn -> M S A) : M S A :=
  fun s =>
    match m s with
    | (Return a, s') => (Return a, s')
    | (Throw e, s') => h e s'
    end.

Notation "'let*' x := m 'in' k" := (bind m (fun x => k))
  (at level 10, x name, m at level 100, k at level 200,
   format "'[v' 'let*'  x  :=  m  'in' '/' k ']'").

Inductive path : Type := POSTS_FILE | STATS_FILE.

Record file : Type := mkFile {
  content : option text;   (* [None]: the file does not exist *)
  readable : bool;
  writable : bool
}.

Record FS : Type := mkFS {
  posts_file : file;
  stats_file : file
}.

Definition fs_get (p : path) (fs : FS) : file :=
  match p with
  | POSTS_FILE => posts_file fs
  | STATS_FILE => stats_file fs
  end.

Definition fs_set (p : path) (f : file) (fs : FS) : FS :=
  match p with
  | POSTS_FILE => mkFS f (stats_file fs)
  | STATS_FILE => mkFS (posts_file fs) f
  end.

(** [fs.readFile(p, 'utf8')] *)
Definition readFile (p : path) : M FS text :=
  fun fs =>
    match content (fs_get p fs) with
    | None => (Throw ENOENT, fs)
    | Some t => if readable (fs_get p fs) then (Return t, fs)
                else (Throw EACCES, fs)
    end.

(** [fs.writeFile(p, t)]: the write replaces the whole text and keeps the
    permissions of an existing file; a file it creates is readable; a
    failed write leaves the file as it was. *)
Definition writeFile (p : path) (t : text) : M FS unit :=
  fun fs =>
    let f := fs_get p fs in
    if writable f
    then
      let r := match content f with None => true | Some _ => readable f end in
      (Return tt, fs_set p (mkFile (Some t) r (writable f)) fs)
    else (Throw EACCES, fs).

Definition JSON_parse {S : Type} (t : text) : M S json :=
  match t with
  | NotJson => throw SyntaxError
  | JsonText v => ret v
  end.

Definition JSON_stringify (v : json) : text := JsonText v.

(** Calling an array method ([reduce], [sort], [findIndex], [unshift]) on
    a value: a TypeError unless the value is an array. *)
Definition asArray {S : Type} (v : json) : M S (list Post) :=
  match v with
  | JArray ps => ret ps
  | _ => throw TypeError
  end.

(** ** Helper functions of server.js *)

Definition readPosts : M FS json :=
  try_catch
    (let* data := readFile POSTS_FILE in
     JSON_parse data)
    (fun _ => ret (JArray [])).

Definition writePosts (posts : list Post) : M FS bool :=
  try_catch
    (let* _ := writeFile POSTS_FILE (JSON_stringify (JArray posts)) in
     ret true)
    (fun _ => ret false).

(** [posts.reduce((sum, post) => sum + (post.views || 0), 0)] *)
Definition sum_views (posts : list Post) : Z :=
  fold_left (fun sum post => sum + views_or_0 post) posts 0.

(** [now] is the reading of the clock by [new Date()]. *)
Definition updateStats (now : Z) : M FS (option Stats) :=
  try_catch
    (let* posts := readPosts in
     let* ps := asArray posts in
     let stats := mkStats (Z.of_nat (length ps)) (sum_views ps) now in
     let* _ := writeFile STATS_FILE (JSON_stringify (JStats stats)) in
     ret (Some stats))
    (fun _ => ret None).

(** ** Gallery API *)

(** [posts.sort((a, b) => new Date(b.created_at) - new Date(a.created_at))].
    [Array.prototype.sort] is stable, and this comparator is a consistent
    order on records with valid dates, so the result is that of a stable
    insertion sort: [insert_newest a l] puts [a] in front of the first
    record that is not strictly newer. *)
Fixpoint insert_newest (a : Post) (l : list Post) : list Post :=
  match l with
  | [] => [a]
  | b :: l' =>
      if created_at b - created_at a >? 0   (* compare(a, b) > 0: b goes first *)
      then b :: insert_newest a l'
      else a :: b :: l'
  end.

Definition sort_newest_first (posts : list Post) : list Post :=
  foldr insert_newest [] posts.

(** [req.query]: a parameter is [None] when the URL does not carry it
    and a string otherwise (repeated or bracketed parameters, which the
    query parser turns into arrays or objects, are left out). *)
Record Query : Type := mkQuery {
  q_page : option string;
  q_limit : option string
}.

Inductive response : Type :=
| PostsPage (posts : list Post) (total : Z) (page total_pages : jsnum)
            (stats : option Stats)   (* { success: true, posts, ... } *)
| Success                            (* { success: true } *)
| ServerError.                       (* status 500, { success: false, .. } *)

(** [app.get('/api/posts')]. The destructuring defaults [page = 1] and
    [limit = 12] apply to a value that is [undefined]; [parseInt] reads
    them through their decimal strings. *)
Definition get_posts (q : Query) (now : Z) : M FS response :=
  try_catch
    (let page := default "1" (q_page q) in
     let limit := default "12" (q_limit q) in
     let* posts := readPosts in
     let* ps := asArray posts in
     let sortedPosts := sort_newest_first ps in
     let pageNum := JsNumber.parseInt page in
     let limitNum := JsNumber.parseInt limit in
     let startIndex := JsNumber.mul (JsNumber.sub pageNum (Num 1)) limitNum in
     let endIndex := JsNumber.add startIndex limitNum in
     let paginatedPosts := slice sortedPosts startIndex endIndex in
     let* stats := updateStats now in
     ret (PostsPage paginatedPosts (Z.of_nat (length ps)) pageNum
            (JsNumber.ceil_div (Z.of_nat (length ps)) limitNum) stats))
    (fun _ => ret ServerError).

(** [p.id === postId] *)
Definition id_is (postId : jsnum) (p : Post) : Prop := Num (post_id p) = postId.

#[global] Instance id_is_dec postId p : Decision (id_is postId p).
Proof. unfold id_is. apply _. Defined.

(** [posts.findIndex(p => p.id === postId)]: [None] stands for -1. *)
Definition findIndex (postId : jsnum) (posts : list Post) : option nat :=
  fst <$> list_find (id_is postId) posts.

(** [posts[i].views = (posts[i].views || 0) + 1] *)
Definition increment_views (i : nat) (posts : list Post) : list Post :=
  alter (fun p => set_views (views_or_0 p + 1) p) i posts.

(** [app.post('/api/posts/:id/view')] *)
Definition post_view (id : string) (now : Z) : M FS response :=
  try_catch
    (let postId := JsNumber.parseInt id in
     let* posts := readPosts in
     let* ps := asArray posts in
     match findIndex postId ps with
     | Some postIndex =>
         let ps' := increment_views postIndex ps in
         let* _ := writePosts ps' in
         let* _ := updateStats now in
         ret Success
     | None => ret Success
     end)
    (fun _ => ret ServerError).

(** ** Telegram bot: the upload conversation *)

(** [ctx.session]: [pendingPost] is [None] when it is [null] or was never
    set. The handlers take the session as they find it on the context of
    the update; keeping it from one update to the next is left to the bot
    framework. *)
Record Session : Type := mkSession {
  pendingPost : option Post;
  waitingForDescription : bool
}.

(** [ctx.from] *)
Record Sender : Type := mkSender {
  username : option string;
  first_name : option string
}.

Record PhotoSize : Type := mkPhotoSize {
  photo_file_id : string;
  photo_width : option Z;
  photo_height : option Z;
  photo_file_size : option Z
}.

Record VideoFile : Type := mkVideoFile {
  video_file_id : string;
  video_duration : option Z;
  video_width : option Z;
  video_height : option Z;
  video_file_size : option Z
}.

(** [ctx.message] of a photo update and of a video update. *)
Record PhotoMessage : Type := mkPhotoMessage {
  photo_caption : option string;
  photo : list PhotoSize
}.

Record VideoMessage : Type := mkVideoMessage {
  video_caption : option string;
  video_of : VideoFile
}.

(** The messages the handlers send with [ctx.reply], one constructor per
    template. *)
Inductive reply : Type :=
| NotAuthorized     (* "Admin only. You are not authorized to upload." *)
| UsagePhoto        (* "Please use /upload command with your caption ..." *)
| UsageVideo
| PhotoReceived     (* "Photo received! Please send a description ..." *)
| VideoReceived
| ErrorPhoto        (* "Error processing photo. Please try again." *)
| ErrorVideo
| ErrorSaving       (* "Error saving post. Please try again." *)
| Uploaded (postType cap descr by_ : string) (id : Z) (website : string).
                    (* "... uploaded successfully!" with Caption,
                       Description, By, ID and the two links *)

(** What a bot handler works on: the data files, the session attached to
    the update's context, and the replies sent so far (oldest first). *)
Record Bot : Type := mkBot {
  fs : FS;
  session : option Session;
  replies : list reply
}.

(** Run a file-system computation inside a handler. *)
Definition lift {A : Type} (m : M FS A) : M Bot A :=
  fun b =>
    let '(r, fs') := m (fs b) in
    (r, mkBot fs' (session b) (replies b)).

(** [ctx.reply(r)] *)
Definition ctx_reply (r : reply) : M Bot unit :=
  fun b => (Return tt, mkBot (fs b) (session b) (replies b ++ [r])).

Definition get_session : M Bot (option Session) :=
  fun b => (Return (session b), b).

(** [ctx.session = ctx.session || {}] *)
Definition ensure_session : M Bot unit :=
  fun b =>
    (Return tt,
     mkBot (fs b) (Some (default (mkSession None false) (session b)))
           (replies b)).

(** An assignment to a property of [ctx.session]; a TypeError when there
    is no session object. *)
Definition update_session (f : Session -> Session) : M Bot unit :=
  fun b =>
    match session b with
    | Some s => (Return tt, mkBot (fs b) (Some (f s)) (replies b))
    | None => (Throw TypeError, b)
    end.

(** [ctx.session.pendingPost = v] *)
Definition set_pendingPost (v : option Post) : M Bot unit :=
  update_session (fun s => mkSession v (waitingForDescription s)).

(** [ctx.session.waitingForDescription = v] *)
Definition set_waitingForDescription (v : bool) : M Bot unit :=
  update_session (fun s => mkSession (pendingPost s) v).

(** The value of [ctx.session.pendingPost]. *)
Definition get_pendingPost : M Bot (option Post) :=
  fun b =>
    match session b with
    | Some s => (Return (pendingPost s), b)
    | None => (Throw TypeError, b)
    end.

(** Access to a property of a value that may be [null] or [undefined]. *)
Definition deref {S A : Type} (v : option A) : M S A :=
  match v with
  | Some a => ret a
  | None => throw TypeError
  end.

(** [ctx.session.pendingPost.description = d] *)
Definition set_pending_description (d : string) : M Bot unit :=
  let* pending := get_pendingPost in
  let* p := deref pending in
  set_pendingPost (Some (set_description d p)).

(** [!ctx.session || !ctx.session.waitingForDescription] *)
Definition not_waiting (s : option Session) : bool :=
  match s with
  | None => true
  | Some s => negb (waitingForDescription s)
  end.

Section Handlers.

(** The environment variables [ADMIN_USERNAMES] and [WEBSITE_URL], and the
    Telegram call [ctx.telegram.getFileLink(file_id)], which yields the
    [href] of the link or fails. *)
Variable env_ADMIN_USERNAMES : option string.
Variable env_WEBSITE_URL : option string.
Variable getFileLink : string -> option string.

Definition ADMIN_USERNAMES : list string :=
  map (fun u => JsString.toLowerCase (JsString.trim u))
      (JsString.split "," (JsString.orElse env_ADMIN_USERNAMES "admin,owner")).

Definition isAdmin (from : Sender) : bool :=
  match username from with
  | None => false
  | Some u =>
      if JsString.isEmpty u then false
      else bool_decide (JsString.toLowerCase u ∈ ADMIN_USERNAMES)
  end.

(** [caption.split(' ')[0]] *)
Definition command_of (cap : string) : string :=
  default "" (head (JsString.split " " cap)).

(** [const [_, ...captionParts] = caption.split(' ')] and then
    [captionParts.join(' ').trim() || fallback] *)
Definition actualCaption_of (cap fallback : string) : string :=
  let captionParts := tail (JsString.split " " cap) in
  JsString.orElse (Some (JsString.trim (JsString.join " " captionParts)))
                  fallback.

(** [bot.on('photo')]; [t_id] is [Date.now()], [t_created] the reading of
    [new Date()]. *)
Definition on_photo (from : Sender) (message : PhotoMessage)
    (t_id t_created : Z) : M Bot unit :=
  if negb (isAdmin from) then ctx_reply NotAuthorized
  else
    try_catch
      (let cap := JsString.orElse (photo_caption message) "" in
       let command := command_of cap in
       if negb (String.eqb command "/upload") then ctx_reply UsagePhoto
       else
         let actualCaption := actualCaption_of cap "Untitled Post" in
         let* ph := deref (last (photo message)) in
         let* fileUrl := deref (getFileLink (photo_file_id ph)) in
         let* posts := lift readPosts in
         let newPost :=
           mkPost t_id image fileUrl fileUrl actualCaption ""
                  (JsString.orElse (username from)
                     (JsString.orElse (first_name from) "Admin"))
                  t_created (Some 0) (photo_file_id ph) None
                  (photo_width ph) (photo_height ph) (photo_file_size ph) in
         let* _ := ctx_reply PhotoReceived in
         let* _ := ensure_session in
         let* _ := set_pendingPost (Some newPost) in
         set_waitingForDescription true)
      (fun _ => ctx_reply ErrorPhoto).

(** [bot.on('video')] *)
Definition on_video (from : Sender) (message : VideoMessage)
    (t_id t_created : Z) : M Bot unit :=
  if negb (isAdmin from) then ctx_reply NotAuthorized
  else
    try_catch
      (let cap := JsString.orElse (video_caption message) "" in
       let command := command_of cap in
       if negb (String.eqb command "/upload") then ctx_reply UsageVideo
       else
         let actualCaption := actualCaption_of cap "Untitled Video" in
         let vid := video_of message in
         let* fileUrl := deref (getFileLink (video_file_id vid)) in
         let* posts := lift readPosts in
         let newPost :=
           mkPost t_id video fileUrl "" actualCaption ""
                  (JsString.orElse (username from)
                     (JsString.orElse (first_name from) "Admin"))
                  t_created (Some 0) (video_file_id vid) (video_duration vid)
                  (video_width vid) (video_height vid) (video_file_size vid) in
         let* _ := ctx_reply VideoReceived in
         let* _ := ensure_session in
         let* _ := set_pendingPost (Some newPost) in
         set_waitingForDescription true)
      (fun _ => ctx_reply ErrorVideo).

(** [bot.on('text')]; [now] is the clock reading of the stats recompute. *)
Definition on_text (message_text : string) (now : Z) : M Bot unit :=
  let* s := get_session in
  if not_waiting s then
    if JsString.startsWithChar "/" message_text then ret tt else ret tt
  else
    try_catch
      (let descr := JsString.trim message_text in
       let* _ :=
         if String.eqb (JsString.toLowerCase descr) "skip"
         then set_pending_description ""
         else set_pending_description descr in
       (* Save the post *)
       let* posts := lift readPosts in
       let* ps := asArray posts in
       let* pending := get_pendingPost in
       let* p := deref pending in
       let ps' := p :: ps in                     (* posts.unshift(...) *)
       let* _ := lift (writePosts ps') in
       let* _ := lift (updateStats now) in
       (* Clear session *)
       let* _ := set_pendingPost None in
       let* _ := set_waitingForDescription false in
       let* post := get_pendingPost in
       let* post := deref post in                (* post.type *)
       let postType :=
         match post_type post with video => "video" | image => "photo" end in
       ctx_reply (Uploaded postType (caption post)
                    (JsString.orElse (Some (description post)) "None")
                    (author post) (post_id post)
                    (JsString.orElse env_WEBSITE_URL "")))
      (fun _ =>
         let* _ := ctx_reply ErrorSaving in
         (* Clear session on error *)
         let* _ := set_pendingPost None in
         set_waitingForDescription false).

End Handlers.

(** ** Notions used in the statements *)

(** What the posts file holds for a reader: the parsed value of a file
    that exists, is readable and is JSON, and the empty array otherwise. *)
Definition stored_value (f : file) : json :=
  match content f with
  | Some (JsonText v) => if readable f then v else JArray []
  | _ => JArray []
  end.

(** The sum of the view counters, a missing counter counting as 0. *)
Definition total_of_views (posts : list Post) : Z :=
  foldr Z.add 0 (map views_or_0 posts).

(** [a] is at least as recent as [b]. *)
Definition newer_or_equal (a b : Post) : Prop := created_at a >= created_at b.

(** The [posts] field of a listing response. *)
Definition posts_of (r : response) : list Post :=
  match r with
  | PostsPage posts _ _ _ _ => posts
  | _ => []
  end.

(** Requests for [/api/posts] served one after the other, each with its
    own clock reading. *)
Fixpoint serve_pages (reqs : list (Query * Z)) : M FS (list response) :=
  match reqs with
  | [] => ret []
  | (q, now) :: rest =>
      let* r := get_posts q now in
      let* rs := serve_pages rest in
      ret (r :: rs)
  end.

(** [n] calls of the view endpoint on the same id, one after the other. *)
Fixpoint post_view_times (n : nat) (id : string) (now : Z)
  : M FS (list response) :=
  match n with
  | O => ret []
  | S k =>
      let* r := post_view id now in
      let* rs := post_view_times k id now in
      ret (r :: rs)
  end.

Definition isDigit (c : ascii) : bool :=
  let n := nat_of_ascii c in ((48 <=? n) && (n <=? 57))%nat.

Fixpoint all_digits (s : string) : bool :=
  match s with
  | EmptyString => true
  | String c r => isDigit c && all_digits r
  end.

(** The number a string of decimal digits denotes, after the digits read
    so far. *)
Fixpoint decimal_value_from (acc : Z) (s : string) : Z :=
  match s with
  | EmptyString => acc
  | String c r =>
      decimal_value_from (10 * acc + (Z.of_nat (nat_of_ascii c) - 48)) r
  end.

Definition decimal_value (s : string) : Z := decimal_value_from 0 s.

(** The first character of [s], if any, satisfies [P]. *)
Definition starts_with (P : ascii -> bool) (s : string) : bool :=
  match s with
  | String c _ => P c
  | EmptyString => false
  end.

Definition is_x (c : ascii) : bool := Ascii.eqb c "x" || Ascii.eqb c "X".

(** Following the words of the specification: the first token of a
    caption when tokens are delimited by white space of any kind. *)
Fixpoint token_prefix (s : string) : string :=
  match s with
  | EmptyString => EmptyString
  | String c r =>
      if JsString.isWhiteSpace c then EmptyString else String c (token_prefix r)
  end.

Definition first_whitespace_token (s : string) : string :=
  token_prefix (JsString.trimStart s).

(** The description the text handler stores for a message text. *)
Definition description_of (message_text : string) : string :=
  if String.eqb (JsString.toLowerCase (JsString.trim message_text)) "skip"
  then ""
  else JsString.trim message_text.

(** ** Sample data for the worked examples *)

Definition sunset : Post :=
  mkPost 1700000000123 image "https://files/photo1" "https://files/photo1"
         "Sunset" "" "alice" 1700000000124 (Some 0) "file-1" None
         (Some 1280) (Some 720) (Some 4096).

Definition clip : Post :=
  mkPost 1700000050000 video "https://files/video1" "" "Clip" "short"
         "alice" 1700000050001 None "file-2" (Some 12)
         (Some 640) (Some 480) (Some 9000).

Definition old_post : Post :=
  mkPost 123 image "https://files/photo0" "https://files/photo0"
         "First" "" "bob" 1600000000000 (Some 7) "file-0" None None None None.

Definition epoch_post : Post :=
  mkPost 0 image "https://files/photo9" "https://files/photo9"
         "Epoch" "" "bob" 0 (Some 3) "file-9" None None None None.

(** A regular file with the given JSON value, readable and writable. *)
Definition json_file (v : json) : file := mkFile (Some (JsonText v)) true true.

Definition fs_of (posts : list Post) : FS :=
  mkFS (json_file (JArray posts)) (json_file (JStats (mkStats 0 0 0))).

Definition admin : Sender := mkSender (Some "Admin") (Some "Alice").

(** The caption "/upload", a line feed, "Sunset at the beach". *)
Definition two_line_caption : string :=
  "/upload" ++ String "010"%char "Sunset at the beach".

Definition large_photo : PhotoSize :=
  mkPhotoSize "file-1" (Some 1280) (Some 720) (Some 4096).

Definition small_photo : PhotoSize :=
  mkPhotoSize "file-1s" (Some 90) (Some 51) (Some 512).

Definition short_video : VideoFile :=
  mkVideoFile "file-2" (Some 12) (Some 640) (Some 480) (Some 9000).

(** A bot with the given store, no session yet and nothing sent. *)
Definition idle_bot (posts : list Post) : Bot := mkBot (fs_of posts) None [].

(** A bot whose session waits for the description of [p]. *)
Definition waiting_bot (posts : list Post) (p : Post) : Bot :=
  mkBot (fs_of posts) (Some (mkSession (Some p) true)) [PhotoReceived].

Definition one_link (file_id : string) : option string :=
  Some ("https://files/" ++ file_id).

(** ** Further functions of server.js *)

(** [fsSync.existsSync(p)] *)
Definition existsSync (p : path) : M FS bool :=
  fun fs =>
    (Return (match content (fs_get p fs) with Some _ => true | None => false end),
     fs).

(** [initializeData]; [now] is read by [new Date()] when the stats file is
    created. There is no [try] here: a failed write is thrown to the
    caller. *)
Definition initializeData (now : Z) : M FS unit :=
  let* posts_exist := existsSync POSTS_FILE in
  let* _ :=
    if negb posts_exist
    then writeFile POSTS_FILE (JSON_stringify (JArray []))
    else ret tt in
  let* stats_exist := existsSync STATS_FILE in
  if negb stats_exist
  then writeFile STATS_FILE (JSON_stringify (JStats (mkStats 0 0 now)))
  else ret tt.

(** The envelopes of [/api/posts/latest] and [/api/stats]. *)
Inductive api_response : Type :=
| LatestPosts (posts : list Post)          (* { success: true, posts } *)
| StatsEnvelope (stats : option Stats)     (* { success: true, stats } *)
| InternalError.                           (* status 500 *)

(** [app.get('/api/posts/latest')] *)
Definition get_latest : M FS api_response :=
  try_catch
    (let* posts := readPosts in
     let* ps := asArray posts in
     let latest := slice (sort_newest_first ps) (Num 0) (Num 5) in
     ret (LatestPosts latest))
    (fun _ => ret InternalError).

(** [app.get('/api/stats')] *)
Definition get_stats (now : Z) : M FS api_response :=
  try_catch
    (let* stats := updateStats now in
     ret (StatsEnvelope stats))
    (fun _ => ret InternalError).

(** The replies of the bot commands [/stats] and [/delete]. *)
Inductive command_reply : Type :=
| AdminOnly         (* "Admin only command." *)
| StatsReport (posts_total views_total images videos updated : Z)
              (by_ : option string)
| StatsError        (* "Error getting statistics" *)
| DeleteUsage       (* "Usage: /delete [post_id] ..." *)
| InvalidPostId     (* "Invalid post ID" *)
| PostNotFound      (* "Post not found" *)
| Deleted (cap : string) (id : Z) (remaining : Z)
                    (* "Post deleted successfully!" with Caption, ID and
                       Remaining posts *)
| DeleteError.      (* "Error deleting post" *)

(** What a command handler works on: the data files and the replies sent
    so far (oldest first). *)
Record Chat : Type := mkChat {
  chat_fs : FS;
  chat_sent : list command_reply
}.

Definition lift_chat {A : Type} (m : M FS A) : M Chat A :=
  fun c =>
    let '(r, fs') := m (chat_fs c) in
    (r, mkChat fs' (chat_sent c)).

(** [ctx.reply(r)] in a command handler. *)
Definition send (r : command_reply) : M Chat unit :=
  fun c => (Return tt, mkChat (chat_fs c) (chat_sent c ++ [r])).

(** [isNaN(n)] *)
Definition isNaN (n : jsnum) : bool :=
  match n with NaN => true | _ => false end.

#[global] Instance media_eq_dec : EqDecision media.
Proof. solve_decision. Defined.

(** [posts.filter(p => p.type === t).length] *)
Definition count_type (t : media) (posts : list Post) : Z :=
  Z.of_nat (length (filter (fun p => post_type p = t) posts)).

Section Commands.

Variable env_ADMIN_USERNAMES : option string.

(** [bot.command('stats')] *)
Definition stats_command (from : Sender) (now : Z) : M Chat unit :=
  if negb (isAdmin env_ADMIN_USERNAMES from) then send AdminOnly
  else
    try_catch
      (let* stats := lift_chat (updateStats now) in
       let* posts := lift_chat readPosts in
       let* ps := asArray posts in                 (* posts.filter *)
       let totalImages := count_type image ps in
       let totalVideos := count_type video ps in
       let* st := deref stats in                   (* stats.total_posts *)
       send (StatsReport (total_posts st) (total_views st)
                         totalImages totalVideos (last_update st)
                         (username from)))
      (fun _ => send StatsError).

(** [bot.command('delete')]; [message_text] is [ctx.message.text]. *)
Definition delete_command (from : Sender) (message_text : string) (now : Z)
  : M Chat unit :=
  if negb (isAdmin env_ADMIN_USERNAMES from) then send AdminOnly
  else
    let args := tail (JsString.split " " message_text) in
    match args with
    | [] => send DeleteUsage
    | arg0 :: _ =>
        let postId := JsNumber.parseInt arg0 in
        if isNaN postId then send InvalidPostId
        else
          try_catch
            (let* posts := lift_chat readPosts in
             let* ps := asArray posts in           (* posts.findIndex *)
             match findIndex postId ps with
             | None => send PostNotFound
             | Some postIndex =>
                 let* deletedPost := deref (ps !! postIndex) in
                 let ps' := delete postIndex ps in (* posts.splice(i, 1) *)
                 let* _ := lift_chat (writePosts ps') in
                 let* _ := lift_chat (updateStats now) in
                 send (Deleted (JsString.orElse (Some (caption deletedPost))
                                                "Untitled")
                               (post_id deletedPost)
                               (Z.of_nat (length ps')))
             end)
            (fun _ => send DeleteError)
    end.

End Commands.

(** The labels of [formatTimeAgo]: "Just now", "<n>m ago", "<n>h ago",
    "<n>d ago", and in the browser also "<n>w ago", "<n>mo ago" and
    "<n>y ago". *)
Inductive time_ago : Type :=
| JustNow
| Minutes (n : Z)
| Hours (n : Z)
| Days (n : Z)
| Weeks (n : Z)
| Months (n : Z)
| Years (n : Z).

(** [formatTimeAgo(date)] of server.js, with [now] the reading of
    [new Date()]; both are instants in milliseconds. *)
Definition formatTimeAgo (now date : Z) : time_ago :=
  let diff := now - date in
  let minute := 60 * 1000 in
  let hour := minute * 60 in
  let day := hour * 24 in
  if diff <? minute then JustNow
  else if diff <? hour then Minutes (diff / minute)
  else if diff <? day then Hours (diff / hour)
  else Days (diff / day).

(** ** The browser script (public/script.js) *)

Module Client.

(** [formatTimeAgo(date)] of script.js. *)
Definition formatTimeAgo (now date : Z) : time_ago :=
  let diff := now - date in
  let minute := 60 * 1000 in
  let hour := minute * 60 in
  let day := hour * 24 in
  let week := day * 7 in
  let month := day * 30 in
  let year := day * 365 in
  if diff <? minute then JustNow
  else if diff <? hour then Minutes (diff / minute)
  else if diff <? day then Hours (diff / hour)
  else if diff <? week then Days (diff / day)
  else if diff <? month then Weeks (diff / week)
  else if diff <? year then Months (diff / month)
  else Years (diff / year).

(** [applyFilter]: the new value of [filteredPosts] for the current
    filter and [allPosts]. *)
Definition applyFilter (currentFilter : string) (allPosts : list Post)
  : list Post :=
  if String.eqb currentFilter "image"
  then filter (fun post => post_type post = image) allPosts
  else if String.eqb currentFilter "video"
  then filter (fun post => post_type post = video) allPosts
  else if String.eqb currentFilter "latest"
  then slice (sort_newest_first allPosts) (Num 0) (Num 12)
  else allPosts.

End Client.

(** ** Further notions used in the statements *)

(** The stats file holds a snapshot that agrees with the posts [ps]. *)
Definition stats_agree (fs : FS) (ps : list Post) : Prop :=
  exists st : Stats,
    content (stats_file fs) = Some (JSON_stringify (JStats st)) /\
    total_posts st = Z.of_nat (length ps) /\
    total_views st = total_of_views ps.

(** The ids of the posts are pairwise distinct. *)
Definition distinct_ids (ps : list Post) : Prop := NoDup (map post_id ps).

(** A file that can be read but not written. *)
Definition readonly_file (v : json) : file := mkFile (Some (JsonText v)) true false.

Definition absent_file : file := mkFile None true true.

Definition stranger : Sender := mkSender (Some "mallory") (Some "Mallory").

(** A number too large to be an index of a stored list: positive infinity
    or a number of at least 2^53. *)
Definition beyond_safe (n : jsnum) : Prop :=
  match n with
  | Infinity false => True
  | Num m => 2 ^ 53 <= m
  | _ => False
  end.

Fixpoint zeros (n : nat) : string :=
  match n with
  | O => EmptyString
  | S k => String "0" (zeros k)
  end.

(** The decimal numeral of 10^309: a 1 followed by 309 zeros. *)
Definition huge_limit : string := String "1" (zeros 309).

(** ** The bot as server.js wires it *)

(** The updates that reach the photo, video and text handlers. *)
Inductive update : Type :=
| PhotoUpdate (from : Sender) (message : PhotoMessage) (t_id t_created : Z)
| VideoUpdate (from : Sender) (message : VideoMessage) (t_id t_created : Z)
| TextUpdate (message_text : string) (now : Z).

Section Dispatch.

Variable env_ADMIN_USERNAMES : option string.
Variable env_WEBSITE_URL : option string.
Variable getFileLink : string -> option string.

(** The handler that [bot.on] registered for the kind of the update. *)
Definition handler_of (u : update) : M Bot unit :=
  match u with
  | PhotoUpdate from message t_id t_created =>
      on_photo env_ADMIN_USERNAMES getFileLink from message t_id t_created
  | VideoUpdate from message t_id t_created =>
      on_video env_ADMIN_USERNAMES getFileLink from message t_id t_created
  | TextUpdate message_text now => on_text env_WEBSITE_URL message_text now
  end.

(** [bot.handleUpdate(update)]: server.js registers no session middleware
    (there is no [bot.use]), so the handler runs on the new context of
    the update, on which [ctx.session] is undefined, and what it assigns
    to [ctx.session] goes away with that context. *)
Definition handleUpdate (u : update) : M Bot unit :=
  fun b =>
    let '(r, b') := handler_of u (mkBot (fs b) None (replies b)) in
    (r, mkBot (fs b') None (replies b')).

(** Updates handled one after the other. *)
Fixpoint handleUpdates (us : list update) : M Bot unit :=
  match us with
  | [] => ret tt
  | u :: rest =>
      let* _ := handleUpdate u in
      handleUpdates rest
  end.

End Dispatch.

(** * Properties *)

(** ** Evaluation examples *)

Example parseInt_123abc : JsNumber.parseInt "123abc" = Num 123.
Proof. reflexivity. Qed.

Example parseInt_abc : JsNumber.parseInt "abc" = NaN.
Proof. reflexivity. Qed.

Example parseInt_empty : JsNumber.parseInt "" = NaN.
Proof. reflexivity. Qed.

Example parseInt_hex : JsNumber.parseInt " 0x7b" = Num 123.
Proof. reflexivity. Qed.

Example parseInt_negative : JsNumber.parseInt "-12.5" = Num (-12).
Proof. reflexivity. Qed.

Example trim_example : JsString.trim "  a b  " = "a b".
Proof. reflexivity. Qed.

Example split_example :
  JsString.split " " "/upload  Sun set" = ["/upload"; ""; "Sun"; "set"].
Proof. reflexivity. Qed.

Example toLowerCase_example : JsString.toLowerCase "SkIp" = "skip".
Proof. reflexivity. Qed.

Example slice_example : slice [1; 2; 3; 4; 5] (Num 2) (Num 4) = [3; 4].
Proof. reflexivity. Qed.

Example slice_nan : slice [1; 2; 3] NaN NaN = [].
Proof. reflexivity. Qed.

Example slice_negative_end : slice [1; 2; 3; 4; 5] (Num 0) (Num (-2)) = [1; 2; 3].
Proof. reflexivity. Qed.

(** ** Doubles *)

Example of_integer_tie :
  JsNumber.of_integer 9007199254740993 = Num 9007199254740992.
Proof. vm_compute. reflexivity. Qed.

Example of_integer_round_up :
  JsNumber.of_integer 9007199254740995 = Num 9007199254740996.
Proof. vm_compute. reflexivity. Qed.

Example parseInt_huge : JsNumber.parseInt huge_limit = Infinity false.
Proof. vm_compute. reflexivity. Qed.

Lemma round_to_double_small (a : Z) :
  0 <= a < 2 ^ 53 -> JsNumber.round_to_double a = a.
Proof.
  intros [H0 H]. unfold JsNumber.round_to_double.
  destruct (Z.leb_spec (Z.log2 a + 1) 53) as [_|Hb]; [reflexivity|].
  exfalso. destruct (Z.eq_dec a 0) as [->|Hne]; [simpl in Hb; lia|].
  apply Z.log2_lt_pow2 in H; lia.
Qed.

Lemma of_integer_small (m : Z) :
  Z.abs m < 2 ^ 53 -> JsNumber.of_integer m = Num m.
Proof.
  intros H. unfold JsNumber.of_integer.
  rewrite round_to_double_small by lia.
  assert (Hlt : 2 ^ 53 < 2 ^ 1024) by (apply Z.pow_lt_mono_r; lia).
  destruct (Z.leb_spec (2 ^ 1024) (Z.abs m)); [lia|].
  f_equal. destruct m; reflexivity.
Qed.

Lemma round_to_double_big (a : Z) :
  2 ^ 53 <= a -> 2 ^ 53 <= JsNumber.round_to_double a.
Proof.
  intros H. unfold JsNumber.round_to_double.
  assert (Hpos : 0 < a) by (pose proof (Z.pow_pos_nonneg 2 53); lia).
  destruct (Z.leb_spec (Z.log2 a + 1) 53) as [Hb|Hb]; [exact H|].
  set (shift := Z.log2 a + 1 - 53).
  assert (Hshift : 1 <= shift) by (unfold shift; lia).
  rewrite Z.shiftr_div_pow2 by lia.
  set (q := a / 2 ^ shift).
  assert (Hp : 0 < 2 ^ shift) by (apply Z.pow_pos_nonneg; lia).
  assert (Hq : 2 ^ 52 <= q).
  { unfold q. apply Z.div_le_lower_bound; [exact Hp|].
    rewrite <- Z.pow_add_r by lia.
    replace (shift + 52) with (Z.log2 a) by (unfold shift; lia).
    apply Z.log2_spec. exact Hpos. }
  assert (Htwo : 2 <= 2 ^ shift).
  { change 2 with (2 ^ 1) at 1. apply Z.pow_le_mono_r; lia. }
  assert (Hge : 2 ^ 53 <= q * 2 ^ shift).
  { change (2 ^ 53) with (2 ^ 52 * 2). apply Z.mul_le_mono_nonneg; lia. }
  match goal with |- _ <= Z.shiftl (if ?c then _ else _) _ => destruct c end;
    rewrite Z.shiftl_mul_pow2 by lia; nia.
Qed.

Lemma of_integer_big (m : Z) :
  2 ^ 53 <= m -> beyond_safe (JsNumber.of_integer m).
Proof.
  intros H.
  assert (Hpos : 0 < m) by (pose proof (Z.pow_pos_nonneg 2 53); lia).
  unfold JsNumber.of_integer. rewrite Z.abs_eq by lia.
  pose proof (round_to_double_big m H) as Hr.
  destruct (Z.leb_spec (2 ^ 1024) (JsNumber.round_to_double m)).
  - destruct (Z.ltb_spec m 0); [lia|]. exact I.
  - rewrite Z.sgn_pos by lia. unfold beyond_safe. lia.
Qed.

Lemma of_integer_cases (m : Z) :
  0 <= m ->
  (m < 2 ^ 53 /\ JsNumber.of_integer m = Num m) \/
  (2 ^ 53 <= m /\ beyond_safe (JsNumber.of_integer m)).
Proof.
  intros H0. destruct (Z.lt_ge_cases m (2 ^ 53)) as [H|H].
  - left. split; [exact H|]. apply of_integer_small. lia.
  - right. split; [exact H|]. apply of_integer_big. exact H.
Qed.

Lemma relativeIndex_beyond (len : Z) (n : jsnum) :
  0 <= len < 2 ^ 53 -> beyond_safe n -> relativeIndex len n = len.
Proof.
  intros Hlen Hn. destruct n as [|[]|m]; simpl in Hn; try contradiction.
  - reflexivity.
  - unfold relativeIndex. destruct (Z.ltb_spec m 0); lia.
Qed.

(** ** The store *)

Lemma readPosts_eq (fs : FS) :
  readPosts fs = (Return (stored_value (posts_file fs)), fs).
Proof.
  unfold readPosts, try_catch, bind, readFile, stored_value; simpl.
  destruct (content (posts_file fs)) as [[|v]|]; simpl; try reflexivity;
    destruct (readable (posts_file fs)); reflexivity.
Qed.

Lemma writePosts_eq (posts : list Post) (fs : FS) :
  writePosts posts fs =
  if writable (posts_file fs)
  then (Return true,
        mkFS (mkFile (Some (JsonText (JArray posts)))
                     (match content (posts_file fs) with
                      | None => true
                      | Some _ => readable (posts_file fs)
                      end)
                     true)
             (stats_file fs))
  else (Return false, fs).
Proof.
  unfold writePosts, try_catch, bind, writeFile; simpl.
  destruct (writable (posts_file fs)) eqn:W; reflexivity.
Qed.

Lemma updateStats_eq (now : Z) (fs : FS) :
  updateStats now fs =
  match stored_value (posts_file fs) with
  | JArray ps =>
      let stats := mkStats (Z.of_nat (length ps)) (sum_views ps) now in
      if writable (stats_file fs)
      then (Return (Some stats),
            mkFS (posts_file fs)
                 (mkFile (Some (JsonText (JStats stats)))
                         (match content (stats_file fs) with
                          | None => true
                          | Some _ => readable (stats_file fs)
                          end)
                         true))
      else (Return None, fs)
  | _ => (Return None, fs)
  end.
Proof.
  unfold updateStats, try_catch, bind. rewrite readPosts_eq.
  destruct (stored_value (posts_file fs)); simpl; try reflexivity.
  unfold writeFile; simpl.
  destruct (writable (stats_file fs)); reflexivity.
Qed.

Lemma updateStats_posts_file (now : Z) (fs : FS) :
  posts_file (snd (updateStats now fs)) = posts_file fs.
Proof.
  rewrite updateStats_eq.
  destruct (stored_value (posts_file fs)); simpl; try reflexivity.
  destruct (writable (stats_file fs)); reflexivity.
Qed.

Lemma updateStats_returns (now : Z) (fs : FS) :
  exists r, fst (updateStats now fs) = Return r.
Proof.
  rewrite updateStats_eq.
  destruct (stored_value (posts_file fs)); simpl; eauto.
  destruct (writable (stats_file fs)); simpl; eauto.
Qed.

Lemma sum_views_from (posts : list Post) (acc : Z) :
  fold_left (fun sum post => sum + views_or_0 post) posts acc
  = acc + total_of_views posts.
Proof.
  revert acc. induction posts as [|p posts IH]; intros acc; simpl.
  - unfold total_of_views; simpl. lia.
  - rewrite IH. unfold total_of_views; simpl. lia.
Qed.

Lemma sum_views_total (posts : list Post) :
  sum_views posts = total_of_views posts.
Proof. unfold sum_views. rewrite sum_views_from. lia. Qed.

(** C9. [readPosts] never raises to its caller: on every state of the
    backing file it returns a value and leaves the file system as it was.
    It returns the empty list when the file is absent, unreadable or not
    JSON, and the stored value, that is the full sequence of stored post
    records, otherwise. *)
Theorem readPosts_never_raises : forall fs : FS,
  exists v : json,
    readPosts fs = (Return v, fs) /\
    v = match content (posts_file fs) with
        | None => JArray []
        | Some t =>
            if readable (posts_file fs)
            then match t with
                 | NotJson => JArray []
                 | JsonText stored => stored
                 end
            else JArray []
        end.
Proof.
  intros fs. exists (stored_value (posts_file fs)). split.
  - apply readPosts_eq.
  - unfold stored_value.
    destruct (content (posts_file fs)) as [[|stored]|];
      destruct (readable (posts_file fs)); reflexivity.
Qed.

(** C8. When the stats recompute returns a snapshot, [total_posts] is the
    number of posts in the store and [total_views] is the sum of their
    view counters, a missing counter counting as 0; the snapshot carries
    the clock reading, is what the stats file now holds, and the posts
    file is untouched. *)
Theorem updateStats_snapshot :
  forall (now : Z) (fs fs' : FS) (stats : Stats),
    updateStats now fs = (Return (Some stats), fs') ->
    exists ps : list Post,
      readPosts fs = (Return (JArray ps), fs) /\
      total_posts stats = Z.of_nat (length ps) /\
      total_views stats = total_of_views ps /\
      last_update stats = now /\
      content (stats_file fs') = Some (JSON_stringify (JStats stats)) /\
      posts_file fs' = posts_file fs.
Proof.
  intros now fs fs' stats H.
  rewrite updateStats_eq in H. rewrite readPosts_eq.
  destruct (stored_value (posts_file fs)) as [ps| |]; try discriminate.
  simpl in H. destruct (writable (stats_file fs)); try discriminate.
  injection H as Hs Hfs. subst stats fs'. exists ps. simpl.
  rewrite sum_views_total. repeat split; reflexivity.
Qed.

Lemma updateStats_snapshot_witness :
  exists ps : list Post,
    readPosts (fs_of [sunset; clip; old_post])
    = (Return (JArray ps), fs_of [sunset; clip; old_post]) /\
    total_posts (mkStats 3 7 99) = Z.of_nat (length ps) /\
    total_views (mkStats 3 7 99) = total_of_views ps /\
    last_update (mkStats 3 7 99) = 99 /\
    content (stats_file
               (mkFS (json_file (JArray [sunset; clip; old_post]))
                     (json_file (JStats (mkStats 3 7 99)))))
    = Some (JSON_stringify (JStats (mkStats 3 7 99))) /\
    posts_file (mkFS (json_file (JArray [sunset; clip; old_post]))
                     (json_file (JStats (mkStats 3 7 99))))
    = posts_file (fs_of [sunset; clip; old_post]).
Proof.
  apply (updateStats_snapshot 99 (fs_of [sunset; clip; old_post])).
  reflexivity.
Defined.

(** ** The view endpoint *)

Lemma findIndex_cons (postId : jsnum) (p : Post) (ps : list Post) :
  findIndex postId (p :: ps) =
  if decide (id_is postId p) then Some O else S <$> findIndex postId ps.
Proof.
  unfold findIndex; simpl. destruct (decide (id_is postId p)); simpl.
  - reflexivity.
  - destruct (list_find (id_is postId) ps) as [[i q]|]; reflexivity.
Qed.

Lemma findIndex_Some (postId : jsnum) (ps : list Post) (i : nat) :
  findIndex postId ps = Some i ->
  exists p, ps !! i = Some p /\ Num (post_id p) = postId.
Proof.
  revert i. induction ps as [|q ps IH]; intros i H.
  - discriminate.
  - rewrite findIndex_cons in H. destruct (decide (id_is postId q)) as [Hq|Hq].
    + injection H as <-. exists q. split; [reflexivity | exact Hq].
    + destruct (findIndex postId ps) as [k|]; [|discriminate].
      injection H as <-. destruct (IH k eq_refl) as (p & Hp & Hid).
      exists p. split; assumption.
Qed.

Lemma findIndex_None (postId : jsnum) (ps : list Post) :
  findIndex postId ps = None <->
  forall p, p ∈ ps -> Num (post_id p) <> postId.
Proof.
  induction ps as [|q ps IH].
  - split; [intros _ p Hp; inversion Hp | reflexivity].
  - rewrite findIndex_cons. destruct (decide (id_is postId q)) as [Hq|Hq].
    + split; [discriminate|]. intros H. exfalso.
      apply (H q); [left | exact Hq].
    + destruct (findIndex postId ps) as [k|] eqn:E.
      * split; [discriminate|]. intros H.
        destruct IH as [_ IH]. discriminate IH.
        intros p Hp. apply H. right. exact Hp.
      * split; [|reflexivity]. intros _ p Hp.
        apply elem_of_cons in Hp as [->|Hp]; [exact Hq|].
        destruct IH as [IH _]. apply IH; [reflexivity | exact Hp].
Qed.

Lemma findIndex_alter (postId : jsnum) (f : Post -> Post) (i : nat)
    (ps : list Post) :
  (forall p, post_id (f p) = post_id p) ->
  findIndex postId (alter f i ps) = findIndex postId ps.
Proof.
  intros Hf. revert i. induction ps as [|q ps IH]; intros i.
  - reflexivity.
  - destruct i as [|i]; simpl; rewrite !findIndex_cons.
    + destruct (decide (id_is postId (f q))) as [H1|H1],
        (decide (id_is postId q)) as [H2|H2];
        unfold id_is in H1, H2; rewrite (Hf q) in H1;
        try reflexivity; contradiction.
    + change (alter f i ps) with (list_alter f i ps).
      fold (alter f i ps). rewrite IH. reflexivity.
Qed.

Lemma stored_value_entry (f : file) (ps : list Post) (i : nat) (p : Post) :
  stored_value f = JArray ps -> ps !! i = Some p ->
  content f = Some (JsonText (JArray ps)) /\ readable f = true.
Proof.
  unfold stored_value. intros H Hp.
  destruct (content f) as [[|v]|]; try (injection H as <-; discriminate).
  destruct (readable f); [|injection H as <-; discriminate].
  subst v. split; reflexivity.
Qed.

(** One call on a store that holds [ps], readable and writable, with a
    match at index [i]. *)
Lemma post_view_found (id : string) (now : Z) (fs : FS) (ps : list Post)
    (i : nat) :
  content (posts_file fs) = Some (JsonText (JArray ps)) ->
  readable (posts_file fs) = true ->
  writable (posts_file fs) = true ->
  findIndex (JsNumber.parseInt id) ps = Some i ->
  exists fs',
    post_view id now fs = (Return Success, fs') /\
    posts_file fs' =
      mkFile (Some (JsonText (JArray (increment_views i ps)))) true true.
Proof.
  intros Hc Hr Hw Hi.
  unfold post_view, try_catch, bind. rewrite readPosts_eq.
  unfold stored_value. rewrite Hc, Hr. simpl. rewrite Hi.
  rewrite writePosts_eq, Hw, Hc, Hr.
  match goal with |- context [updateStats now ?f] =>
    pose proof (updateStats_posts_file now f) as Hp;
    destruct (updateStats_returns now f) as [r Hret];
    destruct (updateStats now f) as [o fs2] end.
  simpl in Hret, Hp. subst o. exists fs2. split; [reflexivity | exact Hp].
Qed.

Lemma post_view_not_found (id : string) (now : Z) (fs : FS) (ps : list Post) :
  readPosts fs = (Return (JArray ps), fs) ->
  findIndex (JsNumber.parseInt id) ps = None ->
  post_view id now fs = (Return Success, fs).
Proof.
  intros Hread Hi. unfold post_view, try_catch, bind.
  rewrite Hread. simpl. rewrite Hi. reflexivity.
Qed.

Lemma increment_views_lookup (i : nat) (ps : list Post) (p : Post) :
  ps !! i = Some p ->
  increment_views i ps = <[i := set_views (views_or_0 p + 1) p]> ps.
Proof.
  unfold increment_views. revert i.
  induction ps as [|q ps IH]; intros i H.
  - destruct i; discriminate.
  - destruct i as [|i]; simpl in *.
    + injection H as ->. reflexivity.
    + f_equal. apply IH. exact H.
Qed.

Lemma iter_increment_views (n : nat) (i : nat) (ps : list Post) (p : Post) :
  ps !! i = Some p ->
  length (Nat.iter n (increment_views i) ps) = length ps /\
  (forall j, j <> i -> Nat.iter n (increment_views i) ps !! j = ps !! j) /\
  exists p',
    Nat.iter n (increment_views i) ps !! i = Some p' /\
    views_or_0 p' = views_or_0 p + Z.of_nat n /\
    (n <> O -> p' = set_views (views_or_0 p + Z.of_nat n) p) /\
    (n = O -> p' = p).
Proof.
  intros Hp. induction n as [|n (Hlen & Hother & p' & Hp' & Hv & Hpos & Hzero)].
  - simpl. repeat split; try reflexivity.
    exists p. repeat split; try assumption; try lia; congruence.
  - rewrite Nat.iter_succ.
    set (l := Nat.iter n (increment_views i) ps) in *.
    unfold increment_views.
    rewrite length_alter. split; [exact Hlen|]. split.
    + intros j Hj. rewrite list_lookup_alter_ne by congruence. auto.
    + rewrite list_lookup_alter_eq, Hp'. simpl.
      eexists. split; [reflexivity|]. rewrite Hv.
      split; [unfold views_or_0; simpl; lia|]. split; [|discriminate].
      intros _. destruct n as [|n].
      * rewrite (Hzero eq_refl). unfold set_views; simpl. do 2 f_equal. lia.
      * rewrite (Hpos ltac:(discriminate)). unfold set_views; simpl.
        f_equal. f_equal. lia.
Qed.

Lemma post_view_times_found (n : nat) (id : string) (now : Z) :
  forall (fs : FS) (ps : list Post) (i : nat),
    content (posts_file fs) = Some (JsonText (JArray ps)) ->
    readable (posts_file fs) = true ->
    writable (posts_file fs) = true ->
    findIndex (JsNumber.parseInt id) ps = Some i ->
    exists fs',
      post_view_times n id now fs = (Return (replicate n Success), fs') /\
      content (posts_file fs')
        = Some (JsonText (JArray (Nat.iter n (increment_views i) ps))) /\
      readable (posts_file fs') = true /\
      writable (posts_file fs') = true.
Proof.
  induction n as [|n IH]; intros fs ps i Hc Hr Hw Hi.
  - exists fs. simpl. repeat split; assumption.
  - destruct (post_view_found id now fs ps i Hc Hr Hw Hi) as (fs1 & H1 & Hf1).
    assert (Hi' : findIndex (JsNumber.parseInt id) (increment_views i ps)
                  = Some i).
    { unfold increment_views. rewrite findIndex_alter; [exact Hi|].
      intros q. reflexivity. }
    destruct (IH fs1 (increment_views i ps) i) as (fs' & Hn & Hc' & Hr' & Hw');
      try (rewrite Hf1; reflexivity); [exact Hi'|].
    exists fs'. split.
    + simpl. unfold bind. rewrite H1.
      fold (post_view_times n id now). rewrite Hn. reflexivity.
    + rewrite Nat.iter_succ_r. repeat split; assumption.
Qed.

(** C7. On a store holding the posts [ps]: when no stored post has the
    requested id, the view endpoint leaves the whole file system unchanged
    and answers with the success envelope; when the id matches, at the
    first such post [p], and the posts file can be written, one call
    answers success and persists the list in which that post's counter is
    one more than before (a missing counter counting as 0), and [n] calls
    in a row answer success [n] times and leave a store of the same posts
    in which that counter is exactly [n] more. *)
Theorem post_view_counts :
  forall (fs : FS) (ps : list Post) (id : string) (now : Z),
    readPosts fs = (Return (JArray ps), fs) ->
    match findIndex (JsNumber.parseInt id) ps with
    | None =>
        (forall p, p ∈ ps -> Num (post_id p) <> JsNumber.parseInt id) /\
        post_view id now fs = (Return Success, fs)
    | Some i =>
        exists p,
          ps !! i = Some p /\ Num (post_id p) = JsNumber.parseInt id /\
          (writable (posts_file fs) = true ->
           (exists fs1,
              post_view id now fs = (Return Success, fs1) /\
              content (posts_file fs1)
              = Some (JSON_stringify
                        (JArray (<[i := set_views (views_or_0 p + 1) p]> ps))) /\
              readPosts fs1
              = (Return (JArray (<[i := set_views (views_or_0 p + 1) p]> ps)),
                 fs1)) /\
           (forall n : nat, exists fs' ps' p',
              post_view_times n id now fs = (Return (replicate n Success), fs') /\
              readPosts fs' = (Return (JArray ps'), fs') /\
              length ps' = length ps /\
              (forall j, j <> i -> ps' !! j = ps !! j) /\
              ps' !! i = Some p' /\
              post_id p' = post_id p /\
              views_or_0 p' = views_or_0 p + Z.of_nat n))
    end.
Proof.
  intros fs ps id now Hread.
  destruct (findIndex (JsNumber.parseInt id) ps) as [i|] eqn:Hi.
  - destruct (findIndex_Some _ _ _ Hi) as (p & Hp & Hid).
    exists p. split; [exact Hp|]. split; [exact Hid|]. intros Hw.
    pose proof Hread as Hsv. rewrite readPosts_eq in Hsv.
    injection Hsv as Hsv.
    destruct (stored_value_entry _ _ _ _ Hsv Hp) as [Hc Hr].
    split.
    + destruct (post_view_found id now fs ps i Hc Hr Hw Hi) as (fs1 & H1 & Hf1).
      rewrite (increment_views_lookup i ps p Hp) in Hf1.
      exists fs1. split; [exact H1|]. split.
      * rewrite Hf1. reflexivity.
      * rewrite readPosts_eq. unfold stored_value. rewrite Hf1. reflexivity.
    + intros n.
      destruct (post_view_times_found n id now fs ps i Hc Hr Hw Hi)
        as (fs' & Hn & Hc' & Hr' & Hw').
      destruct (iter_increment_views n i ps p Hp)
        as (Hlen & Hother & p' & Hp' & Hv & Hpos & Hzero).
      exists fs', (Nat.iter n (increment_views i) ps), p'.
      split; [exact Hn|]. split.
      { rewrite readPosts_eq. unfold stored_value. rewrite Hc', Hr'.
        reflexivity. }
      repeat split; try assumption.
      destruct n as [|n].
      * rewrite (Hzero eq_refl). reflexivity.
      * rewrite (Hpos ltac:(discriminate)). reflexivity.
  - split.
    + apply findIndex_None. exact Hi.
    + apply (post_view_not_found id now fs ps Hread Hi).
Qed.

Lemma post_view_counts_witness :
  exists fs' ps' p',
    post_view_times 2 "123" 5 (fs_of [sunset; old_post])
    = (Return [Success; Success], fs') /\
    readPosts fs' = (Return (JArray ps'), fs') /\
    ps' !! 1%nat = Some p' /\
    post_id p' = 123 /\
    views_or_0 p' = 9.
Proof.
  pose proof (post_view_counts (fs_of [sunset; old_post]) [sunset; old_post]
                "123" 5 eq_refl) as H.
  assert (E : findIndex (JsNumber.parseInt "123") [sunset; old_post]
              = Some 1%nat) by reflexivity.
  rewrite E in H. destruct H as (p & Hp & _ & H).
  injection Hp as <-.
  destruct (H eq_refl) as [_ Hn].
  destruct (Hn 2%nat) as (fs' & ps' & p' & H1 & H2 & _ & _ & H3 & H4 & H5).
  exists fs', ps', p'. repeat split; assumption.
Defined.

(** ** [parseInt] on a string that starts with decimal digits *)

Lemma digit_char (c : ascii) :
  isDigit c = true ->
  JsString.isWhiteSpace c = false /\
  Ascii.eqb c "-" = false /\
  Ascii.eqb c "+" = false /\
  is_x c = false /\
  JsNumber.digitValue 10 c = Some (Z.of_nat (nat_of_ascii c) - 48).
Proof.
  destruct c as [[] [] [] [] [] [] [] []]; intros H;
    try discriminate H; repeat split; reflexivity.
Qed.

Lemma nondigit_char (c : ascii) :
  isDigit c = false -> JsNumber.digitValue 10 c = None.
Proof.
  destruct c as [[] [] [] [] [] [] [] []]; intros H;
    try discriminate H; reflexivity.
Qed.

Lemma readDigits_decimal (ds rest : string) :
  all_digits ds = true ->
  starts_with isDigit rest = false ->
  forall acc : Z,
    JsNumber.readDigits 10 (ds ++ rest) (Some acc)
    = Some (decimal_value_from acc ds).
Proof.
  intros Hds Hrest. induction ds as [|c ds IH]; intros acc.
  - simpl. destruct rest as [|c r]; [reflexivity|].
    simpl in Hrest. simpl. rewrite (nondigit_char c Hrest). reflexivity.
  - simpl in Hds. apply andb_prop in Hds as [Hc Hds].
    destruct (digit_char c Hc) as (_ & _ & _ & _ & Hv).
    simpl. rewrite Hv. simpl default. apply (IH Hds).
Qed.

Lemma parseInt_decimal (ds rest : string) :
  ds <> "" ->
  all_digits ds = true ->
  starts_with isDigit rest = false ->
  (ds = "0" -> starts_with is_x rest = false) ->
  JsNumber.of_integer (decimal_value ds) = Num (decimal_value ds) ->
  JsNumber.parseInt (ds ++ rest) = Num (decimal_value ds).
Proof.
  intros Hne Hds Hrest Hhex Hrep.
  destruct ds as [|c ds]; [congruence|].
  pose proof Hds as Hall. simpl in Hds. apply andb_prop in Hds as [Hc Hds].
  destruct (digit_char c Hc) as (Hws & Hminus & Hplus & Hx & Hv).
  unfold JsNumber.parseInt. simpl JsString.trimStart. rewrite Hws.
  unfold JsNumber.stripSign. rewrite Hminus, Hplus.
  assert (Hprefix : JsNumber.stripHexPrefix (String c (ds ++ rest))
                    = (10, String c (ds ++ rest))).
  { unfold JsNumber.stripHexPrefix.
    destruct (ds ++ rest) as [|d r] eqn:E; [reflexivity|].
    assert (Hd : Ascii.eqb c "0" && (Ascii.eqb d "x" || Ascii.eqb d "X")
                 = false).
    { destruct ds as [|d' ds'].
      - change (rest = String d r) in E. subst rest. simpl in Hrest.
        destruct (Ascii.eqb c "0") eqn:E0; [|reflexivity].
        apply Ascii.eqb_eq in E0. subst c. simpl.
        exact (Hhex eq_refl).
      - change (String d' (ds' ++ rest) = String d r) in E.
        injection E as -> _. simpl in Hds.
        apply andb_prop in Hds as [Hd _].
        destruct (digit_char d Hd) as (_ & _ & _ & Hxd & _).
        unfold is_x in Hxd. rewrite Hxd. apply andb_false_r. }
    rewrite Hd. reflexivity. }
  rewrite Hprefix. simpl JsNumber.readDigits. rewrite Hv. simpl default.
  rewrite (readDigits_decimal ds rest Hds Hrest).
  rewrite Z.mul_1_l. exact Hrep.
Qed.

Lemma set_views_changes (p : Post) : set_views (views_or_0 p + 1) p <> p.
Proof.
  intros E. apply (f_equal views) in E. unfold views_or_0 in E. simpl in E.
  destruct (views p) as [v|]; [|discriminate].
  injection E as E. simpl in E. lia.
Qed.

(** C10 (as amended). The view endpoint reads its id parameter with
    [parseInt]. An id string made of the decimal digits of a stored post's
    id (a number that a double holds exactly, as the id of a stored post
    is), followed by the end of the string or by a character that is not
    a digit (and that does not complete a 0x prefix), increments that
    post as the bare number does. An id string with no parseable numeric
    prefix is a no-op; and a request is a no-op exactly when no stored
    post has the parsed number as its id. *)
Theorem post_view_parseInt :
  forall (fs : FS) (ps : list Post) (now : Z),
    readPosts fs = (Return (JArray ps), fs) ->
    writable (posts_file fs) = true ->
    (forall (ds rest : string) (i : nat) (p : Post),
        ds <> "" -> all_digits ds = true ->
        starts_with isDigit rest = false ->
        (ds = "0" -> starts_with is_x rest = false) ->
        JsNumber.of_integer (decimal_value ds) = Num (decimal_value ds) ->
        findIndex (Num (decimal_value ds)) ps = Some i ->
        ps !! i = Some p ->
        exists fs',
          post_view (ds ++ rest) now fs = (Return Success, fs') /\
          content (posts_file fs')
          = Some (JSON_stringify
                    (JArray (<[i := set_views (views_or_0 p + 1) p]> ps)))) /\
    (forall id : string,
        JsNumber.parseInt id = NaN ->
        post_view id now fs = (Return Success, fs)) /\
    (forall id : string,
        post_view id now fs = (Return Success, fs) <->
        (forall p, p ∈ ps -> Num (post_id p) <> JsNumber.parseInt id)).
Proof.
  intros fs ps now Hread Hw.
  pose proof Hread as Hsv. rewrite readPosts_eq in Hsv. injection Hsv as Hsv.
  split; [|split].
  - intros ds rest i p Hne Hds Hrest Hhex Hrep Hi Hp.
    destruct (stored_value_entry _ _ _ _ Hsv Hp) as [Hc Hr].
    rewrite <- (parseInt_decimal ds rest Hne Hds Hrest Hhex Hrep) in Hi.
    destruct (post_view_found (ds ++ rest) now fs ps i Hc Hr Hw Hi)
      as (fs' & H1 & Hf').
    exists fs'. split; [exact H1|].
    rewrite Hf', (increment_views_lookup i ps p Hp). reflexivity.
  - intros id Hnan. apply (post_view_not_found id now fs ps Hread).
    apply findIndex_None. intros p _. rewrite Hnan. discriminate.
  - intros id. rewrite <- findIndex_None. split.
    + intros Hnoop.
      destruct (findIndex (JsNumber.parseInt id) ps) as [i|] eqn:Hi;
        [exfalso|reflexivity].
      destruct (findIndex_Some _ _ _ Hi) as (p & Hp & _).
      destruct (stored_value_entry _ _ _ _ Hsv Hp) as [Hc Hr].
      destruct (post_view_found id now fs ps i Hc Hr Hw Hi) as (fs' & H1 & Hf').
      rewrite H1 in Hnoop. injection Hnoop as ->.
      apply (f_equal content) in Hf'. rewrite Hc in Hf'. simpl in Hf'.
      injection Hf' as Hf'.
      rewrite (increment_views_lookup i ps p Hp) in Hf'.
      apply (f_equal (fun l => l !! i)) in Hf'.
      rewrite list_lookup_insert_eq in Hf'
        by (apply lookup_lt_is_Some; eauto).
      rewrite Hp in Hf'. injection Hf' as Hf'.
      symmetry in Hf'. exact (set_views_changes p Hf').
    + intros Hi. apply (post_view_not_found id now fs ps Hread Hi).
Qed.

Lemma post_view_parseInt_witness :
  (exists fs',
      post_view "123abc" 5 (fs_of [sunset; old_post]) = (Return Success, fs') /\
      content (posts_file fs')
      = Some (JSON_stringify (JArray [sunset; set_views 8 old_post]))) /\
  post_view "abc" 5 (fs_of [sunset; old_post])
  = (Return Success, fs_of [sunset; old_post]).
Proof.
  destruct (post_view_parseInt (fs_of [sunset; old_post]) [sunset; old_post] 5
              eq_refl eq_refl) as (HA & HB & _).
  split.
  - apply (HA "123" "abc" 1%nat old_post); try reflexivity; discriminate.
  - apply (HB "abc"). reflexivity.
Defined.

(** C10 as stated fails in three ways. A string with a parseable numeric
    prefix is a no-op when no post has that number ("999"); leading
    characters that spell a stored id do not select that post when more
    digits follow ("1234" against post 123); and 0x opens a hexadecimal
    number, so "0x" has no numeric prefix although its first character
    spells the stored id 0. *)
Lemma post_view_parseInt_counterexample :
  (JsNumber.parseInt "999" = Num 999 /\
   post_view "999" 5 (fs_of [sunset; old_post])
   = (Return Success, fs_of [sunset; old_post])) /\
  (post_id old_post = 123 /\
   post_view "1234" 5 (fs_of [sunset; old_post])
   = (Return Success, fs_of [sunset; old_post])) /\
  (post_id epoch_post = 0 /\
   post_view "0x" 5 (fs_of [epoch_post])
   = (Return Success, fs_of [epoch_post])).
Proof. repeat split; reflexivity. Qed.

(** ** Sorting newest first *)

Lemma insert_newest_perm (a : Post) (l : list Post) :
  Permutation (insert_newest a l) (a :: l).
Proof.
  induction l as [|b l IH]; simpl.
  - reflexivity.
  - destruct (created_at b - created_at a >? 0).
    + rewrite IH. apply perm_swap.
    + reflexivity.
Qed.

Lemma sort_newest_first_perm (ps : list Post) :
  Permutation (sort_newest_first ps) ps.
Proof.
  induction ps as [|a ps IH]; simpl.
  - reflexivity.
  - rewrite insert_newest_perm. apply perm_skip. exact IH.
Qed.

Lemma insert_newest_hd (a b : Post) (l : list Post) :
  newer_or_equal b a -> HdRel newer_or_equal b l ->
  HdRel newer_or_equal b (insert_newest a l).
Proof.
  intros Hba Hl. destruct l as [|c l]; simpl.
  - constructor. exact Hba.
  - destruct (created_at c - created_at a >? 0).
    + constructor. inversion Hl; assumption.
    + constructor. exact Hba.
Qed.

Lemma insert_newest_sorted (a : Post) (l : list Post) :
  Sorted newer_or_equal l -> Sorted newer_or_equal (insert_newest a l).
Proof.
  induction l as [|b l IH]; intros Hl; simpl.
  - repeat constructor.
  - inversion Hl as [|? ? Hs Hh]; subst.
    destruct (created_at b - created_at a >? 0) eqn:E.
    + constructor; [apply IH; exact Hs|].
      apply insert_newest_hd; [|exact Hh].
      unfold newer_or_equal. apply Z.gtb_lt in E. lia.
    + constructor; [exact Hl|]. constructor.
      unfold newer_or_equal.
      destruct (Z.gtb_spec (created_at b - created_at a) 0); [discriminate|lia].
Qed.

Lemma newer_or_equal_trans : Transitive newer_or_equal.
Proof. unfold newer_or_equal. intros a b c Hab Hbc. lia. Qed.

Lemma sort_newest_first_sorted (ps : list Post) :
  StronglySorted newer_or_equal (sort_newest_first ps).
Proof.
  apply Sorted_StronglySorted; [exact newer_or_equal_trans|].
  induction ps as [|a ps IH]; simpl.
  - constructor.
  - apply insert_newest_sorted. exact IH.
Qed.

(** ** Pagination *)

Lemma take_beyond {A : Type} (n m : nat) (l : list A) :
  (length l <= n)%nat -> (length l <= m)%nat -> take n l = take m l.
Proof. intros Hn Hm. rewrite !take_ge by assumption. reflexivity. Qed.

Lemma slice_window {A : Type} (l : list A) (s w : Z) :
  0 <= s -> 0 <= w ->
  slice l (Num s) (Num (s + w)) = take (Z.to_nat w) (drop (Z.to_nat s) l).
Proof.
  intros Hs Hw. unfold slice, relativeIndex.
  destruct (Z.ltb_spec s 0); [lia|].
  destruct (Z.ltb_spec (s + w) 0); [lia|].
  destruct (Z.le_gt_cases s (Z.of_nat (length l))) as [Hle|Hgt].
  - rewrite (Z.min_l s) by lia.
    destruct (Z.le_gt_cases (s + w) (Z.of_nat (length l))).
    + rewrite Z.min_l by lia. f_equal. lia.
    + rewrite Z.min_r by lia. apply take_beyond; rewrite length_drop; lia.
  - rewrite !Z.min_r by lia.
    rewrite (drop_ge l (Z.to_nat s)) by lia.
    rewrite drop_ge by lia. rewrite !take_nil. reflexivity.
Qed.

(** The response to a listing request on a store that holds an array. *)
Lemma get_posts_array (q : Query) (now : Z) (fs : FS) (ps : list Post) :
  readPosts fs = (Return (JArray ps), fs) ->
  exists (stats : option Stats) (fs' : FS),
    get_posts q now fs =
    (Return
       (PostsPage
          (slice (sort_newest_first ps)
             (JsNumber.mul
                (JsNumber.sub (JsNumber.parseInt (default "1" (q_page q)))
                              (Num 1))
                (JsNumber.parseInt (default "12" (q_limit q))))
             (JsNumber.add
                (JsNumber.mul
                   (JsNumber.sub (JsNumber.parseInt (default "1" (q_page q)))
                                 (Num 1))
                   (JsNumber.parseInt (default "12" (q_limit q))))
                (JsNumber.parseInt (default "12" (q_limit q)))))
          (Z.of_nat (length ps))
          (JsNumber.parseInt (default "1" (q_page q)))
          (JsNumber.ceil_div (Z.of_nat (length ps))
             (JsNumber.parseInt (default "12" (q_limit q))))
          stats),
     fs') /\
    posts_file fs' = posts_file fs /\
    readPosts fs' = (Return (JArray ps), fs').
Proof.
  intros Hread. unfold get_posts, try_catch, bind. rewrite Hread. simpl.
  pose proof (updateStats_posts_file now fs) as Hp.
  destruct (updateStats_returns now fs) as [r Hret].
  destruct (updateStats now fs) as [o fs2]. simpl in Hret, Hp. subst o.
  exists r, fs2. split; [reflexivity|]. split; [exact Hp|].
  rewrite readPosts_eq in Hread. injection Hread as Hsv.
  rewrite readPosts_eq, Hp, Hsv. reflexivity.
Qed.

Lemma safe_bound : 2 ^ 53 = 9007199254740992.
Proof. reflexivity. Qed.

(** Below 2^53 the window of a page is computed exactly. *)
Lemma page_window (k L : Z) :
  1 <= k -> 0 <= L -> (k - 1) * L + L < 2 ^ 53 -> k < 2 ^ 53 ->
  JsNumber.mul (JsNumber.sub (Num k) (Num 1)) (Num L) = Num ((k - 1) * L) /\
  JsNumber.add (Num ((k - 1) * L)) (Num L) = Num ((k - 1) * L + L).
Proof.
  intros Hk HL Hb Hk'.
  change (JsNumber.sub (Num k) (Num 1)) with (JsNumber.of_integer (k - 1)).
  rewrite (of_integer_small (k - 1)) by lia.
  change (JsNumber.mul (Num (k - 1)) (Num L))
    with (JsNumber.of_integer ((k - 1) * L)).
  change (JsNumber.add (Num ((k - 1) * L)) (Num L))
    with (JsNumber.of_integer ((k - 1) * L + L)).
  rewrite !of_integer_small by nia. split; reflexivity.
Qed.

Lemma add_beyond (a : jsnum) (L : Z) :
  beyond_safe a -> 1 <= L -> beyond_safe (JsNumber.add a (Num L)).
Proof.
  intros Ha HL. destruct a as [|[]|m]; simpl in Ha; try contradiction.
  - exact I.
  - change (JsNumber.add (Num m) (Num L)) with (JsNumber.of_integer (m + L)).
    apply of_integer_big. lia.
Qed.

Lemma mul_beyond (a : jsnum) (L : Z) :
  beyond_safe a -> 1 <= L -> beyond_safe (JsNumber.mul a (Num L)).
Proof.
  intros Ha HL. destruct a as [|[]|m]; simpl in Ha; try contradiction.
  - simpl. destruct (Z.eqb_spec L 0); [lia|].
    destruct (Z.ltb_spec L 0); [lia|]. exact I.
  - change (JsNumber.mul (Num m) (Num L)) with (JsNumber.of_integer (m * L)).
    apply of_integer_big. nia.
Qed.

Lemma slice_beyond {A : Type} (l : list A) (a b : jsnum) :
  Z.of_nat (length l) < 2 ^ 53 -> beyond_safe a -> beyond_safe b ->
  slice l a b = [].
Proof.
  intros Hlen Ha Hb. unfold slice.
  rewrite !relativeIndex_beyond by (assumption || lia).
  rewrite Z.sub_diag. reflexivity.
Qed.

Lemma slice_to_beyond {A : Type} (l : list A) (s L : Z) (b : jsnum) :
  Z.of_nat (length l) < 2 ^ 53 -> 0 <= s -> 2 ^ 53 <= s + L -> beyond_safe b ->
  slice l (Num s) b = take (Z.to_nat L) (drop (Z.to_nat s) l).
Proof.
  intros Hlen Hs HL Hb. unfold slice.
  rewrite (relativeIndex_beyond _ b) by (assumption || lia).
  unfold relativeIndex. destruct (Z.ltb_spec s 0); [lia|].
  destruct (Z.le_gt_cases s (Z.of_nat (length l))).
  - rewrite Z.min_l by lia. apply take_beyond; rewrite length_drop; lia.
  - rewrite Z.min_r by lia. rewrite !drop_ge by lia. rewrite !take_nil.
    reflexivity.
Qed.

(** The window of page [p] as the endpoint computes it, rounding
    included, on a list of fewer than 2^53 elements. *)
Lemma js_page_window {A : Type} (l : list A) (p L : Z) :
  1 <= p -> 1 <= L -> Z.of_nat (length l) < 2 ^ 53 ->
  slice l (JsNumber.mul (JsNumber.sub (Num p) (Num 1)) (Num L))
          (JsNumber.add (JsNumber.mul (JsNumber.sub (Num p) (Num 1)) (Num L))
                        (Num L))
  = take (Z.to_nat L) (drop (Z.to_nat ((p - 1) * L)) l).
Proof.
  intros Hp HL Hlen.
  change (JsNumber.sub (Num p) (Num 1)) with (JsNumber.of_integer (p - 1)).
  assert (Hempty : 2 ^ 53 <= (p - 1) * L ->
                   take (Z.to_nat L) (drop (Z.to_nat ((p - 1) * L)) l) = []).
  { intros Hbig. rewrite drop_ge by lia. apply take_nil. }
  destruct (of_integer_cases (p - 1) ltac:(lia)) as [[Hs Es]|[Hb Eb]].
  - rewrite Es.
    change (JsNumber.mul (Num (p - 1)) (Num L))
      with (JsNumber.of_integer ((p - 1) * L)).
    destruct (of_integer_cases ((p - 1) * L) ltac:(nia)) as [[Hs' Es']|[Hb' Eb']].
    + rewrite Es'.
      change (JsNumber.add (Num ((p - 1) * L)) (Num L))
        with (JsNumber.of_integer ((p - 1) * L + L)).
      destruct (of_integer_cases ((p - 1) * L + L) ltac:(nia))
        as [[Hs'' Es'']|[Hb'' Eb'']].
      * rewrite Es''. apply slice_window; nia.
      * apply slice_to_beyond; try assumption; nia.
    + rewrite Hempty by exact Hb'.
      apply slice_beyond; [exact Hlen | exact Eb' |].
      apply add_beyond; assumption.
  - rewrite Hempty by nia.
    apply slice_beyond; [exact Hlen | |].
    + apply mul_beyond; assumption.
    + apply add_beyond; [apply mul_beyond; assumption | exact HL].
Qed.

(** Requests number [off + 1], [off + 2], ... with page size [L] return
    consecutive windows of the sorted store. *)
Lemma serve_pages_from (L : Z) (ps : list Post) (reqs : list (Query * Z)) :
  1 <= L ->
  Z.of_nat (length ps) < 2 ^ 53 ->
  forall (fs : FS) (off : nat),
    readPosts fs = (Return (JArray ps), fs) ->
    (forall i q now,
        reqs !! i = Some (q, now) ->
        JsNumber.parseInt (default "1" (q_page q))
        = Num (Z.of_nat (off + i) + 1) /\
        JsNumber.parseInt (default "12" (q_limit q)) = Num L) ->
    exists rs fs',
      serve_pages reqs fs = (Return rs, fs') /\
      posts_file fs' = posts_file fs /\
      concat (map posts_of rs)
      = take (length reqs * Z.to_nat L)
             (drop (off * Z.to_nat L) (sort_newest_first ps)).
Proof.
  intros HL Hsize.
  assert (Hsorted : Z.of_nat (length (sort_newest_first ps)) < 2 ^ 53).
  { rewrite (Permutation_length (sort_newest_first_perm ps)). exact Hsize. }
  induction reqs as [|[q now] reqs IH]; intros fs off Hread Hreqs.
  - exists [], fs. repeat split; reflexivity.
  - destruct (get_posts_array q now fs ps Hread)
      as (stats & fs1 & Hget & Hfile & Hread1).
    destruct (Hreqs O q now eq_refl) as [Hpage Hlimit].
    rewrite Hpage, Hlimit in Hget.
    rewrite js_page_window in Hget by (assumption || lia).
    destruct (IH fs1 (S off) Hread1) as (rs & fs' & Hserve & Hfile' & Hcat).
    { intros i q' now' Hi. destruct (Hreqs (S i) q' now' Hi) as [Hp Hl].
      split; [|exact Hl]. rewrite Hp. f_equal. lia. }
    eexists _, fs'. split; [|split].
    + simpl. unfold bind. rewrite Hget.
      fold (serve_pages reqs). rewrite Hserve. reflexivity.
    + congruence.
    + simpl. rewrite Hcat.
      replace (Z.to_nat ((Z.of_nat (off + 0) + 1 - 1) * L))
        with (off * Z.to_nat L)%nat
        by (rewrite Z2Nat.inj_mul, Nat.add_0_r by lia; f_equal; lia).
      replace (S off * Z.to_nat L)%nat with (off * Z.to_nat L + Z.to_nat L)%nat
        by lia.
      rewrite <- drop_drop. apply take_take_drop.
Qed.

(** C6 (as amended). On a stable store of fewer than 2^53 posts, for
    every page size of at least 1 that [parseInt] reads as a finite
    number, the posts returned for pages 1, 2, ... up to a page that
    reaches the end of the store, put one after the other, are the whole
    store: a permutation of the stored records (none twice, none
    missing), ordered by creation time, newest first. Serving the pages
    leaves the posts file as it was. *)
Theorem pages_cover_store :
  forall (fs : FS) (ps : list Post) (L : Z) (reqs : list (Query * Z)),
    readPosts fs = (Return (JArray ps), fs) ->
    Z.of_nat (length ps) < 2 ^ 53 ->
    1 <= L ->
    (forall i q now,
        reqs !! i = Some (q, now) ->
        JsNumber.parseInt (default "1" (q_page q)) = Num (Z.of_nat i + 1) /\
        JsNumber.parseInt (default "12" (q_limit q)) = Num L) ->
    Z.of_nat (length ps) <= Z.of_nat (length reqs) * L ->
    exists rs fs',
      serve_pages reqs fs = (Return rs, fs') /\
      posts_file fs' = posts_file fs /\
      concat (map posts_of rs) = sort_newest_first ps /\
      Permutation (concat (map posts_of rs)) ps /\
      StronglySorted newer_or_equal (concat (map posts_of rs)).
Proof.
  intros fs ps L reqs Hread Hsize HL Hreqs Hlen.
  destruct (serve_pages_from L ps reqs HL Hsize fs O Hread Hreqs)
    as (rs & fs' & Hserve & Hfile & Hcat).
  assert (Hall : concat (map posts_of rs) = sort_newest_first ps).
  { rewrite Hcat. simpl. rewrite drop_0. apply take_ge.
    rewrite (Permutation_length (sort_newest_first_perm ps)).
    apply Nat2Z.inj_le. rewrite Nat2Z.inj_mul, Z2Nat.id by lia. exact Hlen. }
  exists rs, fs'. rewrite Hall. repeat split; try assumption.
  - apply sort_newest_first_perm.
  - apply sort_newest_first_sorted.
Qed.

Lemma pages_cover_store_witness :
  exists rs fs',
    serve_pages [(mkQuery None (Some "2"), 10); (mkQuery (Some "2") (Some "2"), 11)]
                (fs_of [old_post; sunset; clip])
    = (Return rs, fs') /\
    posts_file fs' = posts_file (fs_of [old_post; sunset; clip]) /\
    concat (map posts_of rs) = sort_newest_first [old_post; sunset; clip] /\
    Permutation (concat (map posts_of rs)) [old_post; sunset; clip] /\
    StronglySorted newer_or_equal (concat (map posts_of rs)).
Proof.
  apply (pages_cover_store (fs_of [old_post; sunset; clip])
           [old_post; sunset; clip] 2).
  - reflexivity.
  - reflexivity.
  - lia.
  - intros [|[|i]] q now H; simpl in H; try discriminate;
      injection H as <- <-; split; reflexivity.
  - simpl. lia.
Defined.

Lemma infinite_limit_window {A : Type} (l : list A) (page : jsnum) :
  slice l (JsNumber.mul (JsNumber.sub page (Num 1)) (Infinity false))
          (JsNumber.add
             (JsNumber.mul (JsNumber.sub page (Num 1)) (Infinity false))
             (Infinity false))
  = [].
Proof.
  destruct page as [|[]|k]; try reflexivity.
  - unfold slice. simpl. rewrite Z.sub_diag. reflexivity.
  - change (JsNumber.sub (Num k) (Num 1)) with (JsNumber.of_integer (k - 1)).
    destruct (JsNumber.of_integer (k - 1)) as [|[]|m]; try reflexivity.
    + unfold slice. simpl. rewrite Z.sub_diag. reflexivity.
    + simpl. destruct (m =? 0); [reflexivity|].
      destruct (m <? 0); simpl; [reflexivity|].
      unfold slice. simpl. rewrite Z.sub_diag. reflexivity.
Qed.

(** C6 as stated fails for a page size beyond the range of doubles: with
    limit 10^309, which [parseInt] reads as Infinity, pages 1 and 2 of a
    store of three posts are empty and [total_pages] is 0, and so is
    every page, whatever the page value. *)
Lemma pages_cover_store_counterexample :
  fst (serve_pages [(mkQuery (Some "1") (Some huge_limit), 10);
                    (mkQuery (Some "2") (Some huge_limit), 11)]
                   (fs_of [old_post; sunset; clip]))
  = Return [PostsPage [] 3 (Num 1) (Num 0) (Some (mkStats 3 7 10));
            PostsPage [] 3 (Num 2) (Num 0) (Some (mkStats 3 7 11))] /\
  (forall (page : option string) (now : Z),
      exists r fs',
        get_posts (mkQuery page (Some huge_limit)) now
                  (fs_of [old_post; sunset; clip])
        = (Return r, fs') /\
        posts_of r = []).
Proof.
  split; [vm_compute; reflexivity|].
  intros page now.
  destruct (get_posts_array (mkQuery page (Some huge_limit)) now
              (fs_of [old_post; sunset; clip]) [old_post; sunset; clip]
              eq_refl) as (stats & fs' & Hget & _).
  eexists _, fs'. split; [exact Hget|].
  simpl posts_of.
  change (JsNumber.parseInt
            (default "12" (q_limit (mkQuery page (Some huge_limit)))))
    with (JsNumber.parseInt huge_limit).
  rewrite parseInt_huge. apply infinite_limit_window.
Qed.

Example pages_of_sample :
  fst (serve_pages [(mkQuery None (Some "2"), 10);
                    (mkQuery (Some "2") (Some "2"), 11)]
                   (fs_of [old_post; sunset; clip]))
  = Return [PostsPage [clip; sunset] 3 (Num 1) (Num 2) (Some (mkStats 3 7 10));
            PostsPage [old_post] 3 (Num 2) (Num 2) (Some (mkStats 3 7 11))].
Proof. reflexivity. Qed.

Lemma nan_window (page limit : jsnum) :
  page = NaN \/ limit = NaN ->
  JsNumber.mul (JsNumber.sub page (Num 1)) limit = NaN /\
  JsNumber.add (JsNumber.mul (JsNumber.sub page (Num 1)) limit) limit = NaN.
Proof.
  intros [-> | ->].
  - split; reflexivity.
  - assert (E : JsNumber.mul (JsNumber.sub page (Num 1)) NaN = NaN).
    { destruct (JsNumber.sub page (Num 1)) as [|s|k]; reflexivity. }
    rewrite E. split; reflexivity.
Qed.

(** C2 (as amended). A page or limit value that is missing is replaced by
    its default, page 1 and limit 12, so a request with neither returns
    the first 12 posts, newest first. A value that is present but has no
    numeric prefix is not replaced: [parseInt] makes it NaN and the
    endpoint answers with success and an empty slice, never with an
    error. *)
Theorem get_posts_defaults :
  forall (fs : FS) (ps : list Post) (q : Query) (now : Z),
    readPosts fs = (Return (JArray ps), fs) ->
    get_posts q now fs
    = get_posts (mkQuery (Some (default "1" (q_page q)))
                         (Some (default "12" (q_limit q)))) now fs /\
    (q_page q = None -> q_limit q = None ->
     exists stats fs',
       get_posts q now fs
       = (Return (PostsPage (take 12 (sort_newest_first ps))
                            (Z.of_nat (length ps)) (Num 1)
                            (Num (- (- Z.of_nat (length ps) / 12))) stats),
          fs')) /\
    (JsNumber.parseInt (default "1" (q_page q)) = NaN \/
     JsNumber.parseInt (default "12" (q_limit q)) = NaN ->
     exists page total_pages stats fs',
       get_posts q now fs
       = (Return (PostsPage [] (Z.of_nat (length ps)) page total_pages stats),
          fs')).
Proof.
  intros fs ps q now Hread. split; [reflexivity|]. split.
  - intros Hp Hl.
    destruct (get_posts_array q now fs ps Hread) as (stats & fs' & Hget & _).
    rewrite Hp, Hl in Hget. exists stats, fs'. rewrite Hget.
    change (JsNumber.parseInt (default "1" None)) with (Num 1).
    change (JsNumber.parseInt (default "12" None)) with (Num 12).
    destruct (page_window 1 12) as [Hstart Hend];
      [lia | lia | reflexivity | reflexivity |].
    rewrite Hstart, Hend.
    rewrite slice_window by lia. reflexivity.
  - intros Hnan.
    destruct (get_posts_array q now fs ps Hread) as (stats & fs' & Hget & _).
    destruct (nan_window _ _ Hnan) as [Hstart Hend].
    rewrite Hend, Hstart in Hget. eexists _, _, stats, fs'. exact Hget.
Qed.

Lemma get_posts_defaults_witness :
  (exists stats fs',
      get_posts (mkQuery None None) 10 (fs_of [old_post; sunset])
      = (Return (PostsPage (take 12 (sort_newest_first [old_post; sunset]))
                           2 (Num 1) (Num 1) stats),
         fs')) /\
  (exists page total_pages stats fs',
      get_posts (mkQuery (Some "abc") None) 10 (fs_of [old_post; sunset])
      = (Return (PostsPage [] 2 page total_pages stats), fs')).
Proof.
  destruct (get_posts_defaults (fs_of [old_post; sunset]) [old_post; sunset]
              (mkQuery None None) 10 eq_refl) as (_ & Hdefault & _).
  destruct (get_posts_defaults (fs_of [old_post; sunset]) [old_post; sunset]
              (mkQuery (Some "abc") None) 10 eq_refl) as (_ & _ & Hnan).
  split.
  - exact (Hdefault eq_refl eq_refl).
  - apply Hnan. left. reflexivity.
Defined.

(** C2 as stated fails: with the non-numeric page value "abc" (and also
    with empty page and limit values) the endpoint returns an empty slice
    and a NaN page number, where the defaults return the stored posts. *)
Lemma get_posts_defaults_counterexample :
  fst (get_posts (mkQuery (Some "abc") None) 10 (fs_of [old_post; sunset]))
  = Return (PostsPage [] 2 NaN (Num 1) (Some (mkStats 2 7 10))) /\
  fst (get_posts (mkQuery (Some "") (Some "")) 10 (fs_of [old_post; sunset]))
  = Return (PostsPage [] 2 NaN NaN (Some (mkStats 2 7 10))) /\
  fst (get_posts (mkQuery None None) 10 (fs_of [old_post; sunset]))
  = Return (PostsPage [sunset; old_post] 2 (Num 1) (Num 1)
              (Some (mkStats 2 7 10))).
Proof. repeat split; reflexivity. Qed.

(** ** The upload conversation *)

Lemma writePosts_returns (posts : list Post) (f : FS) :
  exists r, fst (writePosts posts f) = Return r.
Proof.
  rewrite writePosts_eq. destruct (writable (posts_file f)); simpl; eauto.
Qed.

Section TextHandler.

Variable env_WEBSITE_URL : option string.

(** The text handler on a session that waits for a description. *)
Lemma on_text_waiting (message_text : string) (now : Z) (b : Bot)
    (s : Session) :
  session b = Some s ->
  waitingForDescription s = true ->
  on_text env_WEBSITE_URL message_text now b =
  (Return tt,
   mkBot
     (match pendingPost s, stored_value (posts_file (fs b)) with
      | Some p, JArray ps =>
          snd (updateStats now
                 (snd (writePosts
                         (set_description (description_of message_text) p :: ps)
                         (fs b))))
      | _, _ => fs b
      end)
     (Some (mkSession None false))
     (replies b ++ [ErrorSaving])).
Proof.
  intros Hs Hw. destruct b as [f se rp]. simpl in Hs. subst se.
  destruct s as [pending w]. simpl in Hw. subst w.
  unfold on_text, bind at 1, get_session. simpl.
  unfold description_of.
  destruct (String.eqb (JsString.toLowerCase (JsString.trim message_text))
                       "skip");
    (destruct pending as [p|]; [|reflexivity]);
    unfold try_catch, bind, set_pending_description, get_pendingPost, deref,
      set_pendingPost, set_waitingForDescription, update_session, ctx_reply,
      lift, asArray, ret, throw; simpl;
    rewrite readPosts_eq;
    (destruct (stored_value (posts_file f)) as [ps| |]; [|reflexivity..]);
    simpl.
  all: match goal with |- context [writePosts ?l ?f0] =>
         destruct (writePosts_returns l f0) as [r1 H1];
         destruct (writePosts l f0) as [o1 f1] end;
       simpl in H1; subst o1; simpl;
       destruct (updateStats_returns now f1) as [r2 H2];
       destruct (updateStats now f1) as [o2 f2];
       simpl in H2; subst o2; reflexivity.
Qed.

Lemma on_text_idle (message_text : string) (now : Z) (b : Bot) :
  not_waiting (session b) = true ->
  on_text env_WEBSITE_URL message_text now b = (Return tt, b).
Proof.
  intros H. unfold on_text, bind, get_session. rewrite H.
  destruct (JsString.startsWithChar "/" message_text); reflexivity.
Qed.

(** C4. A text message handled while the session is idle (no session, or
    not waiting for a description) changes nothing: no post is committed,
    nothing is sent. A text message handled while the session waits for a
    description always leaves the session idle, with the pending post
    cleared and the waiting flag false, whether or not the commit
    succeeded. *)
Theorem on_text_state_machine :
  forall (message_text : string) (now : Z) (b : Bot),
    if not_waiting (session b)
    then on_text env_WEBSITE_URL message_text now b = (Return tt, b)
    else
      exists b' : Bot,
        on_text env_WEBSITE_URL message_text now b = (Return tt, b') /\
        session b' = Some (mkSession None false) /\
        not_waiting (session b') = true.
Proof.
  intros message_text now b.
  destruct (not_waiting (session b)) eqn:E.
  - apply on_text_idle. exact E.
  - destruct (session b) as [s|] eqn:Hs; [|discriminate].
    simpl in E. apply negb_false_iff in E.
    eexists. split; [apply (on_text_waiting _ _ _ s Hs E)|].
    split; reflexivity.
Qed.


(** X29. Whatever the text and the state, the text handler sends nothing
    when the session is idle and exactly the generic error message when
    it waits for a description: the confirmation with caption,
    description, author and id is never sent, also when the post was
    committed. *)
Theorem on_text_never_confirms :
  forall (message_text : string) (now : Z) (b : Bot),
    exists b' : Bot,
      on_text env_WEBSITE_URL message_text now b = (Return tt, b') /\
      replies b'
      = (replies b ++ (if not_waiting (session b) then [] else [ErrorSaving]))%list.
Proof.
  intros message_text now b.
  destruct (not_waiting (session b)) eqn:E.
  - exists b. split; [apply on_text_idle; exact E|].
    rewrite app_nil_r. reflexivity.
  - destruct (session b) as [s|] eqn:Hs; [|discriminate].
    simpl in E. apply negb_false_iff in E.
    eexists. split; [apply (on_text_waiting _ _ _ s Hs E)|]. reflexivity.
Qed.

End TextHandler.


(** The text handler on a sample waiting session: the post is stored with
    its description and the session is cleared, and the reply is the
    error message. *)
Example on_text_commit_sample :
  on_text (Some "https://site") "Golden hour " 10 (waiting_bot [old_post] sunset)
  = (Return tt,
     mkBot (mkFS (json_file
                    (JArray [set_description "Golden hour" sunset; old_post]))
                 (json_file (JStats (mkStats 2 7 10))))
           (Some (mkSession None false))
           [PhotoReceived; ErrorSaving]).
Proof. reflexivity. Qed.

Section MediaHandlers.

Variable env_ADMIN_USERNAMES : option string.
Variable getFileLink : string -> option string.

(** C5 (as amended). For every photo or video message of an admin: the
    command is the caption up to its first space character. When it is
    not exactly "/upload" the handler replies with the usage guidance and
    leaves the session and the store as they were. When it is, and the
    file link resolves, the pending post's caption is the rest of the
    caption (the parts after the first, joined by spaces) trimmed, or
    "Untitled Post" for a photo and "Untitled Video" for a video when
    that is empty. *)
Theorem upload_caption_rule :
  forall (from : Sender) (pm : PhotoMessage) (vm : VideoMessage)
         (t_id t_created : Z) (b : Bot),
    isAdmin env_ADMIN_USERNAMES from = true ->
    (let cap := JsString.orElse (photo_caption pm) "" in
     let rest :=
       JsString.trim (JsString.join " " (tail (JsString.split " " cap))) in
     if String.eqb (default "" (head (JsString.split " " cap))) "/upload"
     then
       forall ph url,
         last (photo pm) = Some ph ->
         getFileLink (photo_file_id ph) = Some url ->
         exists p : Post,
           on_photo env_ADMIN_USERNAMES getFileLink from pm t_id t_created b
           = (Return tt,
              mkBot (fs b) (Some (mkSession (Some p) true))
                    (replies b ++ [PhotoReceived])) /\
           caption p = (if JsString.isEmpty rest then "Untitled Post" else rest) /\
           post_type p = image /\ post_id p = t_id /\
           description p = "" /\ views p = Some 0
     else
       on_photo env_ADMIN_USERNAMES getFileLink from pm t_id t_created b
       = (Return tt, mkBot (fs b) (session b) (replies b ++ [UsagePhoto]))) /\
    (let cap := JsString.orElse (video_caption vm) "" in
     let rest :=
       JsString.trim (JsString.join " " (tail (JsString.split " " cap))) in
     if String.eqb (default "" (head (JsString.split " " cap))) "/upload"
     then
       forall url,
         getFileLink (video_file_id (video_of vm)) = Some url ->
         exists p : Post,
           on_video env_ADMIN_USERNAMES getFileLink from vm t_id t_created b
           = (Return tt,
              mkBot (fs b) (Some (mkSession (Some p) true))
                    (replies b ++ [VideoReceived])) /\
           caption p = (if JsString.isEmpty rest then "Untitled Video" else rest) /\
           post_type p = video /\ post_id p = t_id /\
           description p = "" /\ views p = Some 0
     else
       on_video env_ADMIN_USERNAMES getFileLink from vm t_id t_created b
       = (Return tt, mkBot (fs b) (session b) (replies b ++ [UsageVideo]))).
Proof.
  intros from pm vm t_id t_created b Hadmin. split.
  - intros cap rest. unfold on_photo. rewrite Hadmin. simpl negb. cbv iota.
    unfold try_catch, bind, command_of. fold cap.
    destruct (String.eqb (default "" (head (JsString.split " " cap)))
                         "/upload") eqn:E; simpl negb; cbv iota.
    + intros ph url Hph Hurl. rewrite Hph.
      unfold deref, lift, ret. cbv beta iota. rewrite Hurl.
      cbn [negb]. cbv beta iota. rewrite readPosts_eq.
      eexists. split; [reflexivity|]. repeat split.
    + destruct b; reflexivity.
  - intros cap rest. unfold on_video. rewrite Hadmin. simpl negb. cbv iota.
    unfold try_catch, bind, command_of. fold cap.
    destruct (String.eqb (default "" (head (JsString.split " " cap)))
                         "/upload") eqn:E; simpl negb; cbv iota.
    + intros url Hurl.
      unfold deref, lift, ret. cbv beta iota zeta. rewrite Hurl.
      cbn [negb]. cbv beta iota. rewrite readPosts_eq.
      eexists. split; [reflexivity|]. repeat split.
    + destruct b; reflexivity.
Qed.

End MediaHandlers.

Lemma upload_caption_rule_witness :
  (exists p : Post,
      on_photo None one_link admin
        (mkPhotoMessage (Some "/upload  Sunset at sea ") [small_photo; large_photo])
        1700000000123 1700000000124 (idle_bot [])
      = (Return tt,
         mkBot (fs_of []) (Some (mkSession (Some p) true)) [PhotoReceived]) /\
      caption p = "Sunset at sea") /\
  on_photo None one_link admin (mkPhotoMessage (Some "Sunset") [large_photo])
    1700000000123 1700000000124 (idle_bot [])
  = (Return tt, mkBot (fs_of []) None [UsagePhoto]) /\
  (exists p : Post,
      on_video None one_link admin (mkVideoMessage (Some "/upload") short_video)
        1700000050000 1700000050001 (idle_bot [])
      = (Return tt,
         mkBot (fs_of []) (Some (mkSession (Some p) true)) [VideoReceived]) /\
      caption p = "Untitled Video").
Proof.
  assert (Hadmin : isAdmin None admin = true) by reflexivity.
  destruct (upload_caption_rule None one_link admin
              (mkPhotoMessage (Some "/upload  Sunset at sea ")
                 [small_photo; large_photo])
              (mkVideoMessage (Some "/upload") short_video)
              1700000000123 1700000000124 (idle_bot []) Hadmin) as [Hphoto _].
  destruct (upload_caption_rule None one_link admin
              (mkPhotoMessage (Some "Sunset") [large_photo])
              (mkVideoMessage (Some "/upload") short_video)
              1700000050000 1700000050001 (idle_bot []) Hadmin)
    as [_ Hvideo].
  destruct (upload_caption_rule None one_link admin
              (mkPhotoMessage (Some "Sunset") [large_photo])
              (mkVideoMessage (Some "/upload") short_video)
              1700000000123 1700000000124 (idle_bot []) Hadmin)
    as [Husage _].
  split; [|split].
  - destruct (Hphoto large_photo "https://files/file-1" eq_refl eq_refl)
      as (p & Hrun & Hcap & _).
    exists p. split; [exact Hrun | exact Hcap].
  - exact Husage.
  - destruct (Hvideo "https://files/file-2" eq_refl)
      as (p & Hrun & Hcap & _).
    exists p. split; [exact Hrun | exact Hcap].
Defined.

(** C5 as stated fails: in a caption whose first line is "/upload" and
    whose second line is the text, the first white-space-delimited token is
    exactly "/upload", but the handler splits at space characters only,
    takes the command to be the text up to the first space, and replies
    with the usage guidance without creating a pending post. *)
Lemma upload_caption_rule_counterexample :
  first_whitespace_token two_line_caption = "/upload" /\
  on_photo None one_link admin
    (mkPhotoMessage (Some two_line_caption) [small_photo; large_photo])
    1700000000123 1700000000124 (idle_bot [])
  = (Return tt, mkBot (fs_of []) None [UsagePhoto]) /\
  on_video None one_link admin
    (mkVideoMessage (Some two_line_caption) short_video)
    1700000000123 1700000000124 (idle_bot [])
  = (Return tt, mkBot (fs_of []) None [UsageVideo]).
Proof. repeat split; reflexivity. Qed.

(** ** End to end *)

(** The two handlers one after the other on one session object, as a
    session store would run them: a photo captioned "/upload Sunset",
    then "skip". The store holds one post with caption "Sunset",
    description "" and views 0; the session is idle again; the second
    reply is the error message. *)
Example upload_then_skip :
  (let* _ := on_photo None one_link admin
               (mkPhotoMessage (Some "/upload Sunset") [small_photo; large_photo])
               1700000000123 1700000000124 in
   on_text None "skip" 1700000009000) (idle_bot [])
  = (Return tt,
     mkBot
       (mkFS (json_file
                (JArray [mkPost 1700000000123 image "https://files/file-1"
                           "https://files/file-1" "Sunset" "" "Admin"
                           1700000000124 (Some 0) "file-1" None
                           (Some 1280) (Some 720) (Some 4096)]))
             (json_file (JStats (mkStats 1 0 1700000009000))))
       (Some (mkSession None false))
       [PhotoReceived; ErrorSaving]).
Proof. vm_compute. reflexivity. Qed.

(** * Further properties *)

(** ** Store helpers *)

(** X1. What [writePosts] reports as written is what [readPosts] returns
    next, when the posts file is new or readable; the stats file is not
    touched. *)
Theorem writePosts_then_readPosts :
  forall (posts : list Post) (fs fs' : FS),
    writePosts posts fs = (Return true, fs') ->
    content (posts_file fs) = None \/ readable (posts_file fs) = true ->
    readPosts fs' = (Return (JArray posts), fs') /\
    stats_file fs' = stats_file fs.
Proof.
  intros posts fs fs' H Hnew. rewrite writePosts_eq in H.
  destruct (writable (posts_file fs)); [|discriminate].
  injection H as <-. rewrite readPosts_eq. unfold stored_value. simpl.
  destruct Hnew as [-> | Hr].
  - split; reflexivity.
  - rewrite Hr. destruct (content (posts_file fs)); split; reflexivity.
Qed.

Lemma writePosts_then_readPosts_witness :
  readPosts (mkFS (json_file (JArray [sunset])) absent_file)
  = (Return (JArray [sunset]), mkFS (json_file (JArray [sunset])) absent_file) /\
  stats_file (mkFS (json_file (JArray [sunset])) absent_file)
  = stats_file (mkFS absent_file absent_file).
Proof.
  apply (writePosts_then_readPosts [sunset] (mkFS absent_file absent_file)).
  - reflexivity.
  - left. reflexivity.
Defined.

Lemma initializeData_eq (now : Z) (fs : FS) :
  initializeData now fs =
  match content (posts_file fs) with
  | Some _ =>
      match content (stats_file fs) with
      | Some _ => (Return tt, fs)
      | None =>
          if writable (stats_file fs)
          then (Return tt,
                mkFS (posts_file fs)
                     (mkFile (Some (JsonText (JStats (mkStats 0 0 now))))
                             true true))
          else (Throw EACCES, fs)
      end
  | None =>
      if writable (posts_file fs)
      then
        let fs1 := mkFS (mkFile (Some (JsonText (JArray []))) true true)
                        (stats_file fs) in
        match content (stats_file fs) with
        | Some _ => (Return tt, fs1)
        | None =>
            if writable (stats_file fs)
            then (Return tt,
                  mkFS (posts_file fs1)
                       (mkFile (Some (JsonText (JStats (mkStats 0 0 now))))
                               true true))
            else (Throw EACCES, fs1)
        end
      else (Throw EACCES, fs)
  end.
Proof.
  unfold initializeData, bind, existsSync, writeFile, ret. simpl.
  destruct (content (posts_file fs)) eqn:Ep; simpl.
  - destruct (content (stats_file fs)) eqn:Es; simpl; [reflexivity|].
    rewrite Es. destruct (writable (stats_file fs)); reflexivity.
  - rewrite Ep. destruct (writable (posts_file fs)) eqn:Wp; simpl; [|reflexivity].
    destruct (content (stats_file fs)) eqn:Es; simpl; [reflexivity|].
    rewrite Es. destruct (writable (stats_file fs)); reflexivity.
Qed.

(** X2. When [initializeData] returns, both data files exist; a file that
    existed before is exactly as it was, a posts file it created holds the
    empty array and a stats file it created holds the zero snapshot; and
    running it again changes nothing. *)
Theorem initializeData_creates_missing :
  forall (now now' : Z) (fs fs' : FS),
    initializeData now fs = (Return tt, fs') ->
    (forall p, content (fs_get p fs) <> None -> fs_get p fs' = fs_get p fs) /\
    (forall p, content (fs_get p fs') <> None) /\
    (content (posts_file fs) = None ->
     content (posts_file fs') = Some (JSON_stringify (JArray []))) /\
    (content (stats_file fs) = None ->
     content (stats_file fs')
     = Some (JSON_stringify (JStats (mkStats 0 0 now)))) /\
    initializeData now' fs' = (Return tt, fs').
Proof.
  intros now now' fs fs' H. rewrite initializeData_eq in H.
  destruct (content (posts_file fs)) as [tp|] eqn:Ep;
    [|destruct (writable (posts_file fs)); [|discriminate]];
    (destruct (content (stats_file fs)) as [ts|] eqn:Es;
     [|destruct (writable (stats_file fs)); [|discriminate]]);
    injection H as <-;
    (split; [|split; [|split; [|split]]]).
  all: try (intros [] Hp; simpl in *; congruence).
  all: try (intros []; simpl in *; congruence).
  all: try (simpl; congruence).
  all: try (intros _; reflexivity).
  all: rewrite initializeData_eq; simpl; rewrite ?Ep, ?Es; reflexivity.
Qed.

Lemma initializeData_creates_missing_witness :
  content (posts_file
             (mkFS (json_file (JArray [sunset]))
                   (json_file (JStats (mkStats 0 0 50)))))
  = Some (JSON_stringify (JArray [sunset])) /\
  initializeData 60
    (mkFS (json_file (JArray [sunset])) (json_file (JStats (mkStats 0 0 50))))
  = (Return tt,
     mkFS (json_file (JArray [sunset])) (json_file (JStats (mkStats 0 0 50)))).
Proof.
  destruct (initializeData_creates_missing 50 60
              (mkFS (json_file (JArray [sunset])) absent_file)
              (mkFS (json_file (JArray [sunset]))
                    (json_file (JStats (mkStats 0 0 50))))
              eq_refl) as (Hkeep & _ & _ & _ & Hagain).
  split; [|exact Hagain].
  apply (f_equal content (Hkeep POSTS_FILE ltac:(discriminate))).
Defined.

(** ** The read-only endpoints *)

Lemma sorted_take_drop {A : Type} (R : A -> A -> Prop) (l : list A) (n : nat) :
  StronglySorted R l ->
  forall a b, a ∈ take n l -> b ∈ drop n l -> R a b.
Proof.
  intros Hl. revert n. induction Hl as [|x l Hl IH Hx]; intros n a b Ha Hb.
  - rewrite take_nil in Ha. inversion Ha.
  - destruct n as [|n]; simpl in Ha, Hb.
    + inversion Ha.
    + apply elem_of_cons in Ha as [-> | Ha].
      * rewrite Forall_forall in Hx. apply Hx.
        apply (subseteq_drop n l). exact Hb.
      * apply (IH n); assumption.
Qed.

Lemma sorted_take {A : Type} (R : A -> A -> Prop) (l : list A) (n : nat) :
  StronglySorted R l -> StronglySorted R (take n l).
Proof.
  intros Hl. revert n. induction Hl as [|x l Hl IH Hx]; intros n.
  - rewrite take_nil. constructor.
  - destruct n as [|n]; simpl; constructor.
    + apply IH.
    + rewrite Forall_forall in *. intros y Hy. apply Hx.
      apply (subseteq_take n l). exact Hy.
Qed.

Lemma get_stats_eq (now : Z) (fs : FS) :
  get_stats now fs =
  (Return (StatsEnvelope (match fst (updateStats now fs) with
                          | Return r => r
                          | Throw _ => None
                          end)),
   snd (updateStats now fs)).
Proof.
  unfold get_stats, try_catch, bind.
  destruct (updateStats_returns now fs) as [r Hret].
  destruct (updateStats now fs) as [o fs2]. simpl in Hret. subst o.
  reflexivity.
Qed.

Lemma get_latest_array (fs : FS) (ps : list Post) :
  readPosts fs = (Return (JArray ps), fs) ->
  get_latest fs = (Return (LatestPosts (take 5 (sort_newest_first ps))), fs).
Proof.
  intros Hread. unfold get_latest, try_catch, bind. rewrite Hread. simpl.
  change (Num 5) with (Num (0 + 5)).
  rewrite slice_window by lia. reflexivity.
Qed.

(** X3. On a store of posts, [/api/posts/latest] answers with at most
    five posts, newest first, and each of them is at least as recent as
    every stored post it leaves out; together the returned and the
    omitted posts are the store. It writes nothing. *)
Theorem get_latest_newest :
  forall (fs : FS) (ps : list Post),
    readPosts fs = (Return (JArray ps), fs) ->
    exists latest omitted : list Post,
      get_latest fs = (Return (LatestPosts latest), fs) /\
      length latest = Nat.min 5 (length ps) /\
      StronglySorted newer_or_equal latest /\
      Permutation (latest ++ omitted) ps /\
      (forall a b, a ∈ latest -> b ∈ omitted -> newer_or_equal a b).
Proof.
  intros fs ps Hread.
  exists (take 5 (sort_newest_first ps)), (drop 5 (sort_newest_first ps)).
  split; [apply get_latest_array; exact Hread|].
  split.
  { rewrite length_take, (Permutation_length (sort_newest_first_perm ps)).
    reflexivity. }
  split.
  { apply sorted_take. apply sort_newest_first_sorted. }
  split.
  { rewrite take_drop. apply sort_newest_first_perm. }
  apply sorted_take_drop. apply sort_newest_first_sorted.
Qed.

Lemma get_latest_newest_witness :
  exists latest omitted : list Post,
    get_latest (fs_of [old_post; sunset; clip])
    = (Return (LatestPosts latest), fs_of [old_post; sunset; clip]) /\
    length latest = Nat.min 5 (length [old_post; sunset; clip]) /\
    StronglySorted newer_or_equal latest /\
    Permutation (latest ++ omitted) [old_post; sunset; clip] /\
    (forall a b, a ∈ latest -> b ∈ omitted -> newer_or_equal a b).
Proof.
  apply (get_latest_newest (fs_of [old_post; sunset; clip])). reflexivity.
Defined.

(** X4. [/api/posts/latest] returns what [/api/posts] returns for page 1
    with limit 5. *)
Theorem get_latest_is_first_page :
  forall (fs : FS) (ps : list Post) (now : Z),
    readPosts fs = (Return (JArray ps), fs) ->
    exists latest total_pages stats fs',
      get_latest fs = (Return (LatestPosts latest), fs) /\
      get_posts (mkQuery (Some "1") (Some "5")) now fs
      = (Return (PostsPage latest (Z.of_nat (length ps)) (Num 1)
                           total_pages stats),
         fs').
Proof.
  intros fs ps now Hread.
  destruct (get_posts_array (mkQuery (Some "1") (Some "5")) now fs ps Hread)
    as (stats & fs' & Hget & _).
  change (JsNumber.parseInt (default "1" (q_page (mkQuery (Some "1") (Some "5")))))
    with (Num 1) in Hget.
  change (JsNumber.parseInt
            (default "12" (q_limit (mkQuery (Some "1") (Some "5")))))
    with (Num 5) in Hget.
  destruct (page_window 1 5) as [Hstart Hend];
    [lia | lia | reflexivity | reflexivity |].
  rewrite Hstart, Hend in Hget. rewrite slice_window in Hget by lia.
  eexists _, _, stats, fs'. split; [apply get_latest_array; exact Hread|].
  exact Hget.
Qed.

Lemma get_latest_is_first_page_witness :
  exists latest total_pages stats fs',
    get_latest (fs_of [old_post; sunset; clip])
    = (Return (LatestPosts latest), fs_of [old_post; sunset; clip]) /\
    get_posts (mkQuery (Some "1") (Some "5")) 10 (fs_of [old_post; sunset; clip])
    = (Return (PostsPage latest (Z.of_nat (length [old_post; sunset; clip]))
                         (Num 1) total_pages stats),
       fs').
Proof.
  apply (get_latest_is_first_page (fs_of [old_post; sunset; clip])
           [old_post; sunset; clip] 10).
  reflexivity.
Defined.

(** X5. [/api/stats] never answers with the error envelope: it always
    answers with success and leaves the posts file alone. The [stats] it
    carries is null exactly when the posts file holds JSON that is not an
    array or the stats file cannot be written. *)
Theorem get_stats_always_succeeds :
  forall (now : Z) (fs : FS),
    exists (stats : option Stats) (fs' : FS),
      get_stats now fs = (Return (StatsEnvelope stats), fs') /\
      posts_file fs' = posts_file fs /\
      (stats = None <->
       (forall ps, fst (readPosts fs) <> Return (JArray ps)) \/
       writable (stats_file fs) = false).
Proof.
  intros now fs. rewrite get_stats_eq, updateStats_eq, readPosts_eq. simpl.
  destruct (stored_value (posts_file fs)) as [ps| |] eqn:E.
  - simpl. destruct (writable (stats_file fs)) eqn:W; simpl.
    + eexists _, _. split; [reflexivity|]. split; [reflexivity|].
      split; [discriminate|]. intros [H | H]; [|discriminate].
      exfalso. apply (H ps). reflexivity.
    + exists None, fs. repeat split; auto.
  - exists None, fs. repeat split; auto; left; intros ps; discriminate.
  - exists None, fs. repeat split; auto; left; intros ps; discriminate.
Qed.

(** X6. The three GET endpoints never change the posts file, whatever it
    holds and whatever the query; [/api/posts/latest] changes no file at
    all. *)
Theorem get_endpoints_read_only :
  forall (q : Query) (now : Z) (fs : FS),
    posts_file (snd (get_posts q now fs)) = posts_file fs /\
    snd (get_latest fs) = fs /\
    posts_file (snd (get_stats now fs)) = posts_file fs.
Proof.
  intros q now fs. split; [|split].
  - unfold get_posts, try_catch, bind. rewrite readPosts_eq.
    destruct (stored_value (posts_file fs)); simpl; try reflexivity.
    pose proof (updateStats_posts_file now fs) as Hp.
    destruct (updateStats_returns now fs) as [r Hret].
    destruct (updateStats now fs) as [o fs2]. simpl in Hret, Hp. subst o.
    exact Hp.
  - unfold get_latest, try_catch, bind. rewrite readPosts_eq.
    destruct (stored_value (posts_file fs)); reflexivity.
  - rewrite get_stats_eq. apply updateStats_posts_file.
Qed.

Lemma ceil_div_bounds (n L : Z) :
  0 <= n -> 1 <= L ->
  exists T, JsNumber.ceil_div n (Num L) = Num T /\ (T - 1) * L < n <= T * L.
Proof.
  intros Hn HL. exists (- (- n / L)). split.
  - destruct L; try lia. reflexivity.
  - pose proof (Z.div_mod (- n) L ltac:(lia)) as Hdm.
    pose proof (Z.mod_pos_bound (- n) L ltac:(lia)) as Hb.
    nia.
Qed.

(** X7. On a store of fewer than 2^53 posts, for a page size [L] of at
    least 1 and a page number [p] of at least 1 that [parseInt] reads as
    finite numbers, the listing endpoint reports a [total_pages] that is
    the least number of pages of size [L] that hold the store; no page
    holds more than [L] posts, every page before the last holds exactly
    [L], every page up to the last holds at least one, and every page
    after it is empty. *)
Theorem get_posts_page_ranges :
  forall (fs : FS) (ps : list Post) (q : Query) (now L p : Z),
    readPosts fs = (Return (JArray ps), fs) ->
    Z.of_nat (length ps) < 2 ^ 53 ->
    JsNumber.parseInt (default "12" (q_limit q)) = Num L ->
    JsNumber.parseInt (default "1" (q_page q)) = Num p ->
    1 <= L -> 1 <= p ->
    exists (page_posts : list Post) (T : Z) (stats : option Stats) (fs' : FS),
      get_posts q now fs
      = (Return (PostsPage page_posts (Z.of_nat (length ps)) (Num p) (Num T)
                           stats),
         fs') /\
      (T - 1) * L < Z.of_nat (length ps) <= T * L /\
      Z.of_nat (length page_posts) <= L /\
      (p < T -> Z.of_nat (length page_posts) = L) /\
      (p <= T -> page_posts <> []) /\
      (T < p -> page_posts = []).
Proof.
  intros fs ps q now L p Hread Hsize HL Hp HL1 Hp1.
  destruct (get_posts_array q now fs ps Hread) as (stats & fs' & Hget & _).
  rewrite HL, Hp in Hget.
  rewrite js_page_window in Hget
    by (try rewrite (Permutation_length (sort_newest_first_perm ps));
        assumption).
  destruct (ceil_div_bounds (Z.of_nat (length ps)) L ltac:(lia) HL1)
    as (T & HT & Hlo & Hhi).
  rewrite HT in Hget.
  eexists _, T, stats, fs'. split; [exact Hget|]. split; [lia|].
  assert (Hlen : length (take (Z.to_nat L)
                           (drop (Z.to_nat ((p - 1) * L))
                                 (sort_newest_first ps)))
                 = Nat.min (Z.to_nat L)
                           (length ps - Z.to_nat ((p - 1) * L))).
  { rewrite length_take, length_drop,
      (Permutation_length (sort_newest_first_perm ps)). reflexivity. }
  split; [rewrite Hlen; lia|]. split; [|split].
  - intros HpT. rewrite Hlen. nia.
  - intros HpT E. apply (f_equal length) in E. rewrite Hlen in E.
    simpl in E. nia.
  - intros HTp. apply length_zero_iff_nil. rewrite Hlen. nia.
Qed.

Lemma get_posts_page_ranges_witness :
  exists (page_posts : list Post) (T : Z) (stats : option Stats) (fs' : FS),
    get_posts (mkQuery (Some "2") (Some "2")) 10 (fs_of [old_post; sunset; clip])
    = (Return (PostsPage page_posts
                         (Z.of_nat (length [old_post; sunset; clip]))
                         (Num 2) (Num T) stats),
       fs') /\
    (T - 1) * 2 < Z.of_nat (length [old_post; sunset; clip]) <= T * 2 /\
    Z.of_nat (length page_posts) <= 2 /\
    (2 < T -> Z.of_nat (length page_posts) = 2) /\
    (2 <= T -> page_posts <> []) /\
    (T < 2 -> page_posts = []).
Proof.
  apply (get_posts_page_ranges (fs_of [old_post; sunset; clip])
           [old_post; sunset; clip] (mkQuery (Some "2") (Some "2")) 10 2 2);
    try reflexivity; lia.
Defined.

(** X8. When the posts file holds JSON that is not an array, the listing
    endpoints and the view endpoint answer with the error envelope of
    status 500 and change no file. *)
Theorem non_array_store_is_server_error :
  forall (fs : FS) (q : Query) (id : string) (now : Z),
    (forall ps, fst (readPosts fs) <> Return (JArray ps)) ->
    get_posts q now fs = (Return ServerError, fs) /\
    get_latest fs = (Return InternalError, fs) /\
    post_view id now fs = (Return ServerError, fs).
Proof.
  intros fs q id now H. rewrite readPosts_eq in H. simpl in H.
  unfold get_posts, get_latest, post_view, try_catch, bind.
  rewrite readPosts_eq.
  destruct (stored_value (posts_file fs)) as [ps| |].
  - exfalso. apply (H ps). reflexivity.
  - repeat split; reflexivity.
  - repeat split; reflexivity.
Qed.

Lemma non_array_store_is_server_error_witness :
  get_posts (mkQuery None None) 10 (mkFS (json_file JOther) absent_file)
  = (Return ServerError, mkFS (json_file JOther) absent_file) /\
  get_latest (mkFS (json_file JOther) absent_file)
  = (Return InternalError, mkFS (json_file JOther) absent_file) /\
  post_view "123" 10 (mkFS (json_file JOther) absent_file)
  = (Return ServerError, mkFS (json_file JOther) absent_file).
Proof.
  apply (non_array_store_is_server_error (mkFS (json_file JOther) absent_file)).
  intros ps. discriminate.
Defined.

(** ** The view endpoint and the stats *)

Lemma post_view_found_eq (id : string) (now : Z) (fs : FS) (ps : list Post)
    (i : nat) :
  readPosts fs = (Return (JArray ps), fs) ->
  findIndex (JsNumber.parseInt id) ps = Some i ->
  post_view id now fs
  = (Return Success,
     snd (updateStats now (snd (writePosts (increment_views i ps) fs)))).
Proof.
  intros Hread Hi. unfold post_view, try_catch, bind. rewrite Hread. simpl.
  rewrite Hi.
  destruct (writePosts_returns (increment_views i ps) fs) as [r1 H1].
  destruct (writePosts (increment_views i ps) fs) as [o1 f1].
  simpl in H1. subst o1. simpl.
  destruct (updateStats_returns now f1) as [r2 H2].
  destruct (updateStats now f1) as [o2 f2]. simpl in H2. subst o2.
  reflexivity.
Qed.

Lemma total_of_views_increment (i : nat) (ps : list Post) (p : Post) :
  ps !! i = Some p ->
  total_of_views (increment_views i ps) = total_of_views ps + 1.
Proof.
  unfold increment_views, total_of_views. revert i.
  induction ps as [|q ps IH]; intros i H.
  - destruct i; discriminate.
  - destruct i as [|i].
    + change (views_or_0 (set_views (views_or_0 q + 1) q)
              + foldr Z.add 0 (map views_or_0 ps)
              = views_or_0 q + foldr Z.add 0 (map views_or_0 ps) + 1).
      unfold views_or_0 at 1. simpl. lia.
    + change (views_or_0 q
              + foldr Z.add 0
                  (map views_or_0
                     (alter (fun p => set_views (views_or_0 p + 1) p) i ps))
              = views_or_0 q + foldr Z.add 0 (map views_or_0 ps) + 1).
      rewrite (IH i H). lia.
Qed.

(** X9. A view that finds its post, with both data files writable, leaves
    a stats file that agrees with the new store: the same number of posts
    and a total of views that is one more than before. *)
Theorem post_view_updates_stats :
  forall (fs : FS) (ps : list Post) (id : string) (now : Z) (i : nat),
    readPosts fs = (Return (JArray ps), fs) ->
    findIndex (JsNumber.parseInt id) ps = Some i ->
    writable (posts_file fs) = true ->
    writable (stats_file fs) = true ->
    exists (fs' : FS) (ps' : list Post),
      post_view id now fs = (Return Success, fs') /\
      readPosts fs' = (Return (JArray ps'), fs') /\
      stats_agree fs' ps' /\
      length ps' = length ps /\
      total_of_views ps' = total_of_views ps + 1.
Proof.
  intros fs ps id now i Hread Hi Hwp Hws.
  destruct (findIndex_Some _ _ _ Hi) as (p & Hp & _).
  pose proof Hread as Hsv. rewrite readPosts_eq in Hsv. injection Hsv as Hsv.
  destruct (stored_value_entry _ _ _ _ Hsv Hp) as [Hc Hr].
  eexists _, (increment_views i ps).
  split; [apply (post_view_found_eq id now fs ps i Hread Hi)|].
  rewrite writePosts_eq, Hwp, Hc, Hr. simpl snd.
  rewrite updateStats_eq. unfold stored_value. simpl. rewrite Hws. simpl.
  split; [rewrite readPosts_eq; reflexivity|]. split.
  - eexists. split; [reflexivity|]. simpl. split; [reflexivity|].
    apply sum_views_total.
  - split; [apply length_alter|].
    apply (total_of_views_increment i ps p Hp).
Qed.

Lemma post_view_updates_stats_witness :
  exists (fs' : FS) (ps' : list Post),
    post_view "123abc" 5 (fs_of [sunset; old_post]) = (Return Success, fs') /\
    readPosts fs' = (Return (JArray ps'), fs') /\
    stats_agree fs' ps' /\
    length ps' = length [sunset; old_post] /\
    total_of_views ps' = total_of_views [sunset; old_post] + 1.
Proof.
  apply (post_view_updates_stats (fs_of [sunset; old_post]) [sunset; old_post]
           "123abc" 5 1%nat); reflexivity.
Defined.

(** X10. When the posts file cannot be written, the view endpoint still
    answers with the success envelope, for every id, and the posts file
    is exactly as it was: the count is lost without a trace. *)
Theorem post_view_silent_write_failure :
  forall (fs : FS) (ps : list Post) (id : string) (now : Z),
    readPosts fs = (Return (JArray ps), fs) ->
    writable (posts_file fs) = false ->
    exists fs' : FS,
      post_view id now fs = (Return Success, fs') /\
      posts_file fs' = posts_file fs.
Proof.
  intros fs ps id now Hread Hw.
  destruct (findIndex (JsNumber.parseInt id) ps) as [i|] eqn:Hi.
  - eexists. split; [apply (post_view_found_eq id now fs ps i Hread Hi)|].
    rewrite updateStats_posts_file, writePosts_eq, Hw. reflexivity.
  - exists fs. split; [apply (post_view_not_found id now fs ps Hread Hi)|].
    reflexivity.
Qed.

Lemma post_view_silent_write_failure_witness :
  exists fs' : FS,
    post_view "123" 5
      (mkFS (readonly_file (JArray [sunset; old_post])) absent_file)
    = (Return Success, fs') /\
    posts_file fs'
    = posts_file (mkFS (readonly_file (JArray [sunset; old_post])) absent_file).
Proof.
  apply (post_view_silent_write_failure
           (mkFS (readonly_file (JArray [sunset; old_post])) absent_file)
           [sunset; old_post]); reflexivity.
Defined.

(** ** The allow-list *)

Lemma toLowerCase_isEmpty (u v : string) :
  JsString.toLowerCase u = JsString.toLowerCase v ->
  JsString.isEmpty u = JsString.isEmpty v.
Proof. destruct u, v; simpl; intros H; try discriminate; reflexivity. Qed.

(** X11. The admin check ignores letter case: two senders whose usernames
    differ only in case get the same answer, whatever the configured
    list. A sender without a username, or with an empty one, is never an
    admin. With no [ADMIN_USERNAMES] in the environment the admins are
    "admin" and "owner" in any letter case. *)
Theorem isAdmin_ignores_case :
  forall (env : option string) (u v : string) (f1 f2 : option string),
    JsString.toLowerCase u = JsString.toLowerCase v ->
    isAdmin env (mkSender (Some u) f1) = isAdmin env (mkSender (Some v) f2) /\
    isAdmin env (mkSender None f1) = false /\
    isAdmin env (mkSender (Some "") f1) = false /\
    (isAdmin None (mkSender (Some u) f1) = true <->
     JsString.toLowerCase u = "admin" \/ JsString.toLowerCase u = "owner").
Proof.
  intros env u v f1 f2 H. unfold isAdmin. simpl.
  rewrite (toLowerCase_isEmpty u v H), H.
  split; [reflexivity|]. split; [reflexivity|]. split; [reflexivity|].
  rewrite <- H. change (ADMIN_USERNAMES None) with ["admin"; "owner"].
  destruct (JsString.isEmpty v) eqn:E.
  - rewrite <- (toLowerCase_isEmpty u v H) in E.
    destruct u; [|discriminate]. simpl.
    split; [discriminate | intros [|]; discriminate].
  - rewrite bool_decide_eq_true, !elem_of_cons, elem_of_nil. tauto.
Qed.

Lemma isAdmin_ignores_case_witness :
  isAdmin (Some "Alice, BOB") (mkSender (Some "ALICE") None)
  = isAdmin (Some "Alice, BOB") (mkSender (Some "alice") (Some "A")) /\
  isAdmin (Some "Alice, BOB") (mkSender None None) = false /\
  isAdmin (Some "Alice, BOB") (mkSender (Some "") None) = false /\
  (isAdmin None (mkSender (Some "ALICE") None) = true <->
   JsString.toLowerCase "ALICE" = "admin" \/
   JsString.toLowerCase "ALICE" = "owner").
Proof.
  apply (isAdmin_ignores_case (Some "Alice, BOB") "ALICE" "alice" None (Some "A")).
  reflexivity.
Defined.

Example isAdmin_configured :
  isAdmin (Some "Alice, BOB") (mkSender (Some "bob") None) = true /\
  isAdmin (Some "Alice, BOB") (mkSender (Some "admin") None) = false.
Proof. split; reflexivity. Qed.

(** ** Staging an upload *)

(** The post the photo handler stages. *)
Lemma on_photo_eq (env : option string) (getFileLink : string -> option string)
    (from : Sender) (pm : PhotoMessage) (t_id t_created : Z) (b : Bot) :
  on_photo env getFileLink from pm t_id t_created b =
  (Return tt,
   if negb (isAdmin env from)
   then mkBot (fs b) (session b) (replies b ++ [NotAuthorized])
   else
     let cap := JsString.orElse (photo_caption pm) "" in
     if negb (String.eqb (command_of cap) "/upload")
     then mkBot (fs b) (session b) (replies b ++ [UsagePhoto])
     else
       match last (photo pm) with
       | None => mkBot (fs b) (session b) (replies b ++ [ErrorPhoto])
       | Some ph =>
           match getFileLink (photo_file_id ph) with
           | None => mkBot (fs b) (session b) (replies b ++ [ErrorPhoto])
           | Some fileUrl =>
               mkBot (fs b)
                 (Some (mkSession
                    (Some (mkPost t_id image fileUrl fileUrl
                             (actualCaption_of cap "Untitled Post") ""
                             (JsString.orElse (username from)
                                (JsString.orElse (first_name from) "Admin"))
                             t_created (Some 0) (photo_file_id ph) None
                             (photo_width ph) (photo_height ph)
                             (photo_file_size ph)))
                    true))
                 (replies b ++ [PhotoReceived])
           end
       end).
Proof.
  unfold on_photo. destruct b as [f se rp]. simpl.
  destruct (isAdmin env from); simpl; [|reflexivity].
  unfold try_catch, bind.
  destruct (String.eqb (command_of (JsString.orElse (photo_caption pm) ""))
                       "/upload"); simpl; [|reflexivity].
  destruct (last (photo pm)) as [ph|]; simpl; [|reflexivity].
  destruct (getFileLink (photo_file_id ph)) as [url|]; simpl; [|reflexivity].
  unfold lift. simpl. rewrite readPosts_eq. reflexivity.
Qed.

Lemma on_video_eq (env : option string) (getFileLink : string -> option string)
    (from : Sender) (vm : VideoMessage) (t_id t_created : Z) (b : Bot) :
  on_video env getFileLink from vm t_id t_created b =
  (Return tt,
   if negb (isAdmin env from)
   then mkBot (fs b) (session b) (replies b ++ [NotAuthorized])
   else
     let cap := JsString.orElse (video_caption vm) "" in
     if negb (String.eqb (command_of cap) "/upload")
     then mkBot (fs b) (session b) (replies b ++ [UsageVideo])
     else
       match getFileLink (video_file_id (video_of vm)) with
       | None => mkBot (fs b) (session b) (replies b ++ [ErrorVideo])
       | Some fileUrl =>
           mkBot (fs b)
             (Some (mkSession
                (Some (mkPost t_id video fileUrl ""
                         (actualCaption_of cap "Untitled Video") ""
                         (JsString.orElse (username from)
                            (JsString.orElse (first_name from) "Admin"))
                         t_created (Some 0) (video_file_id (video_of vm))
                         (video_duration (video_of vm))
                         (video_width (video_of vm))
                         (video_height (video_of vm))
                         (video_file_size (video_of vm))))
                true))
             (replies b ++ [VideoReceived])
       end).
Proof.
  unfold on_video. destruct b as [f se rp]. simpl.
  destruct (isAdmin env from); simpl; [|reflexivity].
  unfold try_catch, bind.
  destruct (String.eqb (command_of (JsString.orElse (video_caption vm) ""))
                       "/upload"); simpl; [|reflexivity].
  destruct (getFileLink (video_file_id (video_of vm))) as [url|]; simpl;
    [|reflexivity].
  unfold lift. simpl. rewrite readPosts_eq. reflexivity.
Qed.

(** X12. A photo or a video from a sender who is not an admin is turned
    away: the only effect is the denial message; the session and the
    files are as before, whatever the caption. *)
Theorem media_from_stranger_rejected :
  forall (env : option string) (getFileLink : string -> option string)
         (from : Sender) (pm : PhotoMessage) (vm : VideoMessage)
         (t_id t_created : Z) (b : Bot),
    isAdmin env from = false ->
    on_photo env getFileLink from pm t_id t_created b
    = (Return tt, mkBot (fs b) (session b) (replies b ++ [NotAuthorized])) /\
    on_video env getFileLink from vm t_id t_created b
    = (Return tt, mkBot (fs b) (session b) (replies b ++ [NotAuthorized])).
Proof.
  intros env getFileLink from pm vm t_id t_created b H.
  rewrite on_photo_eq, on_video_eq, H. split; reflexivity.
Qed.

Lemma media_from_stranger_rejected_witness :
  on_photo None one_link stranger
    (mkPhotoMessage (Some "/upload Sunset") [large_photo]) 1 2
    (waiting_bot [old_post] sunset)
  = (Return tt,
     mkBot (fs_of [old_post]) (Some (mkSession (Some sunset) true))
           [PhotoReceived; NotAuthorized]) /\
  on_video None one_link stranger
    (mkVideoMessage (Some "/upload Clip") short_video) 1 2
    (waiting_bot [old_post] sunset)
  = (Return tt,
     mkBot (fs_of [old_post]) (Some (mkSession (Some sunset) true))
           [PhotoReceived; NotAuthorized]).
Proof.
  apply (media_from_stranger_rejected None one_link stranger
           (mkPhotoMessage (Some "/upload Sunset") [large_photo])
           (mkVideoMessage (Some "/upload Clip") short_video) 1 2
           (waiting_bot [old_post] sunset)).
  reflexivity.
Defined.




(** ** The whole conversation *)


(** The scenario of the conversation as the program runs it: the photo is
    acknowledged, the "skip" that follows is ignored, the store stays
    empty. *)
Example upload_then_skip_as_wired :
  handleUpdates None None one_link
    [PhotoUpdate admin
       (mkPhotoMessage (Some "/upload Sunset") [small_photo; large_photo])
       1700000000123 1700000000124;
     TextUpdate "skip" 1700000009000]
    (idle_bot [])
  = (Return tt, mkBot (fs_of []) None [PhotoReceived]).
Proof. vm_compute. reflexivity. Qed.



(** ** Bot commands *)

Lemma delete_command_eq (env : option string) (from : Sender)
    (message_text : string) (now : Z) (c : Chat) :
  delete_command env from message_text now c =
  (Return tt,
   if negb (isAdmin env from)
   then mkChat (chat_fs c) (chat_sent c ++ [AdminOnly])
   else
     match tail (JsString.split " " message_text) with
     | [] => mkChat (chat_fs c) (chat_sent c ++ [DeleteUsage])
     | arg0 :: _ =>
         if isNaN (JsNumber.parseInt arg0)
         then mkChat (chat_fs c) (chat_sent c ++ [InvalidPostId])
         else
           match stored_value (posts_file (chat_fs c)) with
           | JArray ps =>
               match findIndex (JsNumber.parseInt arg0) ps with
               | None => mkChat (chat_fs c) (chat_sent c ++ [PostNotFound])
               | Some i =>
                   match ps !! i with
                   | Some p =>
                       mkChat
                         (snd (updateStats now
                                 (snd (writePosts (delete i ps) (chat_fs c)))))
                         (chat_sent c ++
                          [Deleted (JsString.orElse (Some (caption p)) "Untitled")
                                   (post_id p)
                                   (Z.of_nat (length (delete i ps)))])
                   | None => mkChat (chat_fs c) (chat_sent c ++ [DeleteError])
                   end
               end
           | _ => mkChat (chat_fs c) (chat_sent c ++ [DeleteError])
           end
     end).
Proof.
  unfold delete_command. destruct c as [f sent0]. simpl.
  destruct (isAdmin env from); simpl; [|reflexivity].
  destruct (tail (JsString.split " " message_text)) as [|arg0 rest];
    [reflexivity|].
  destruct (isNaN (JsNumber.parseInt arg0)); [reflexivity|].
  unfold try_catch, bind, lift_chat. simpl. rewrite readPosts_eq.
  destruct (stored_value (posts_file f)) as [ps| |]; simpl; try reflexivity.
  destruct (findIndex (JsNumber.parseInt arg0) ps) as [i|]; [|reflexivity].
  destruct (ps !! i) as [p|]; simpl; [|reflexivity].
  destruct (writePosts_returns (delete i ps) f) as [r1 H1].
  destruct (writePosts (delete i ps) f) as [o1 f1]. simpl in H1. subst o1.
  simpl.
  destruct (updateStats_returns now f1) as [r2 H2].
  destruct (updateStats now f1) as [o2 f2]. simpl in H2. subst o2.
  reflexivity.
Qed.




Example delete_command_sample :
  delete_command None admin "/delete 123" 9
    (mkChat (fs_of [sunset; old_post; clip]) [])
  = (Return tt,
     mkChat (mkFS (json_file (JArray [sunset; clip]))
                  (json_file (JStats (mkStats 2 0 9))))
            [Deleted "First" 123 2]).
Proof. vm_compute. reflexivity. Qed.


Example delete_command_two_spaces :
  delete_command None admin "/delete  123" 9
    (mkChat (fs_of [sunset; old_post; clip]) [])
  = (Return tt, mkChat (fs_of [sunset; old_post; clip]) [InvalidPostId]).
Proof. vm_compute. reflexivity. Qed.

Lemma findIndex_delete_distinct (n : Z) (ps : list Post) (i : nat) (p : Post) :
  distinct_ids ps -> ps !! i = Some p -> post_id p = n ->
  findIndex (Num n) (delete i ps) = None.
Proof.
  intros Hnd Hp Hid. apply findIndex_None. intros q Hq Hqid.
  injection Hqid as Hqid.
  apply list_elem_of_lookup in Hq as [j Hj].
  assert (Hk : exists k, k <> i /\ ps !! k = Some q).
  { destruct (decide (j < i)%nat) as [Hlt|Hge].
    - rewrite list_lookup_delete_lt in Hj by exact Hlt.
      exists j. split; [lia | exact Hj].
    - rewrite list_lookup_delete_ge in Hj by lia.
      exists (S j). split; [lia | exact Hj]. }
  destruct Hk as (k & Hne & Hk). apply Hne.
  apply (NoDup_lookup (map post_id ps) k i n Hnd).
  - change (map post_id ps) with (post_id <$> ps).
    rewrite list_lookup_fmap, Hk. simpl. congruence.
  - change (map post_id ps) with (post_id <$> ps).
    rewrite list_lookup_fmap, Hp. simpl. congruence.
Qed.

(** X19. When the ids of the stored posts are pairwise distinct, a
    deleted id is gone: a second [/delete] of the same id answers "Post
    not found" and a view of it is a no-op, both leaving the files as the
    first deletion left them. *)
Theorem delete_command_then_gone :
  forall (env : option string) (from : Sender) (message_text arg0 : string)
         (rest : list string) (now now' : Z) (c : Chat) (ps : list Post)
         (i : nat),
    isAdmin env from = true ->
    tail (JsString.split " " message_text) = arg0 :: rest ->
    readPosts (chat_fs c) = (Return (JArray ps), chat_fs c) ->
    findIndex (JsNumber.parseInt arg0) ps = Some i ->
    writable (posts_file (chat_fs c)) = true ->
    distinct_ids ps ->
    exists (c' : Chat) (r : command_reply),
      delete_command env from message_text now c = (Return tt, c') /\
      readPosts (chat_fs c') = (Return (JArray (delete i ps)), chat_fs c') /\
      delete_command env from message_text now' c'
      = (Return tt, mkChat (chat_fs c') (chat_sent c ++ [r; PostNotFound])) /\
      post_view arg0 now' (chat_fs c') = (Return Success, chat_fs c').
Proof.
  intros env from message_text arg0 rest now now' c ps i Ha Hargs Hread Hi Hwp
         Hnd.
  destruct (findIndex_Some _ _ _ Hi) as (p & Hp & Hid).
  pose proof Hread as Hsv. rewrite readPosts_eq in Hsv. injection Hsv as Hsv.
  destruct (stored_value_entry _ _ _ _ Hsv Hp) as [Hc Hr].
  assert (Hnan : isNaN (JsNumber.parseInt arg0) = false).
  { rewrite <- Hid. reflexivity. }
  assert (Hgone : findIndex (JsNumber.parseInt arg0) (delete i ps) = None).
  { rewrite <- Hid. apply (findIndex_delete_distinct _ ps i p Hnd Hp eq_refl). }
  eexists _, _. split.
  { rewrite delete_command_eq, Ha, Hargs, Hnan, Hsv, Hi, Hp. reflexivity. }
  simpl chat_fs. simpl chat_sent.
  assert (Hread' :
            readPosts (snd (updateStats now
                              (snd (writePosts (delete i ps) (chat_fs c)))))
            = (Return (JArray (delete i ps)),
               snd (updateStats now (snd (writePosts (delete i ps) (chat_fs c)))))).
  { rewrite readPosts_eq, updateStats_posts_file, writePosts_eq, Hwp, Hc, Hr.
    reflexivity. }
  split; [exact Hread'|]. split.
  - rewrite delete_command_eq, Ha, Hargs, Hnan. simpl chat_fs.
    pose proof Hread' as Hsv'. rewrite readPosts_eq in Hsv'.
    injection Hsv' as Hsv'. rewrite Hsv', Hgone. simpl.
    rewrite <- app_assoc. reflexivity.
  - apply (post_view_not_found arg0 now' _ (delete i ps) Hread' Hgone).
Qed.

Lemma delete_command_then_gone_witness :
  exists (c' : Chat) (r : command_reply),
    delete_command None admin "/delete 123" 9
      (mkChat (fs_of [sunset; old_post; clip]) [])
    = (Return tt, c') /\
    readPosts (chat_fs c')
    = (Return (JArray (delete 1%nat [sunset; old_post; clip])), chat_fs c') /\
    delete_command None admin "/delete 123" 10 c'
    = (Return tt, mkChat (chat_fs c') ([] ++ [r; PostNotFound])) /\
    post_view "123" 10 (chat_fs c') = (Return Success, chat_fs c').
Proof.
  apply (delete_command_then_gone None admin "/delete 123" "123" [] 9 10
           (mkChat (fs_of [sunset; old_post; clip]) [])
           [sunset; old_post; clip] 1%nat); try reflexivity.
  unfold distinct_ids. apply (bool_decide_unpack _). vm_compute. exact I.
Defined.

(** X20. When the posts file cannot be written, [/delete] of an existing
    id still replies that the post was deleted, with one post fewer as
    the remaining count, while the posts file is exactly as it was. *)
Theorem delete_command_silent_write_failure :
  forall (env : option string) (from : Sender) (message_text arg0 : string)
         (rest : list string) (now : Z) (c : Chat) (ps : list Post) (i : nat),
    isAdmin env from = true ->
    tail (JsString.split " " message_text) = arg0 :: rest ->
    readPosts (chat_fs c) = (Return (JArray ps), chat_fs c) ->
    findIndex (JsNumber.parseInt arg0) ps = Some i ->
    writable (posts_file (chat_fs c)) = false ->
    exists (c' : Chat) (p : Post),
      delete_command env from message_text now c = (Return tt, c') /\
      ps !! i = Some p /\
      posts_file (chat_fs c') = posts_file (chat_fs c) /\
      chat_sent c'
      = (chat_sent c ++
         [Deleted (JsString.orElse (Some (caption p)) "Untitled") (post_id p)
                  (Z.of_nat (length ps) - 1)])%list.
Proof.
  intros env from message_text arg0 rest now c ps i Ha Hargs Hread Hi Hwp.
  destruct (findIndex_Some _ _ _ Hi) as (p & Hp & Hid).
  pose proof Hread as Hsv. rewrite readPosts_eq in Hsv. injection Hsv as Hsv.
  assert (Hnan : isNaN (JsNumber.parseInt arg0) = false).
  { rewrite <- Hid. reflexivity. }
  assert (Hlen : Z.of_nat (length (delete i ps)) = Z.of_nat (length ps) - 1).
  { rewrite length_delete by eauto. apply lookup_lt_Some in Hp. lia. }
  eexists _, p. split.
  { rewrite delete_command_eq, Ha, Hargs, Hnan, Hsv, Hi, Hp. reflexivity. }
  simpl chat_fs. simpl chat_sent. split; [exact Hp|]. split.
  - rewrite updateStats_posts_file, writePosts_eq, Hwp. reflexivity.
  - rewrite Hlen. reflexivity.
Qed.

Lemma delete_command_silent_write_failure_witness :
  exists (c' : Chat) (p : Post),
    delete_command None admin "/delete 123" 9
      (mkChat (mkFS (readonly_file (JArray [sunset; old_post])) absent_file) [])
    = (Return tt, c') /\
    [sunset; old_post] !! 1%nat = Some p /\
    posts_file (chat_fs c') = readonly_file (JArray [sunset; old_post]) /\
    chat_sent c'
    = ([] ++ [Deleted (JsString.orElse (Some (caption p)) "Untitled")
                      (post_id p) (Z.of_nat (length [sunset; old_post]) - 1)])%list.
Proof.
  apply (delete_command_silent_write_failure None admin "/delete 123" "123" []
           9 (mkChat (mkFS (readonly_file (JArray [sunset; old_post]))
                           absent_file) [])
           [sunset; old_post] 1%nat); reflexivity.
Defined.

Lemma count_types_total (ps : list Post) :
  count_type image ps + count_type video ps = Z.of_nat (length ps).
Proof.
  unfold count_type. induction ps as [|p ps IH]; [reflexivity|].
  rewrite !filter_cons.
  destruct (decide (post_type p = image)) as [E1|E1],
           (decide (post_type p = video)) as [E2|E2];
    simpl length; try lia.
  - congruence.
  - destruct (post_type p); congruence.
Qed.

Lemma stats_command_eq (env : option string) (from : Sender) (now : Z)
    (c : Chat) :
  stats_command env from now c =
  (Return tt,
   if negb (isAdmin env from)
   then mkChat (chat_fs c) (chat_sent c ++ [AdminOnly])
   else
     match stored_value (posts_file (chat_fs c)) with
     | JArray ps =>
         if writable (stats_file (chat_fs c))
         then mkChat (snd (updateStats now (chat_fs c)))
                     (chat_sent c ++
                      [StatsReport (Z.of_nat (length ps)) (sum_views ps)
                                   (count_type image ps) (count_type video ps)
                                   now (username from)])
         else mkChat (chat_fs c) (chat_sent c ++ [StatsError])
     | _ => mkChat (chat_fs c) (chat_sent c ++ [StatsError])
     end).
Proof.
  unfold stats_command. destruct c as [f sent0]. simpl.
  destruct (isAdmin env from); simpl; [|reflexivity].
  unfold try_catch, bind, lift_chat. simpl.
  rewrite updateStats_eq.
  destruct (stored_value (posts_file f)) as [ps| |] eqn:Hsv; simpl.
  - destruct (writable (stats_file f)) eqn:W; simpl.
    + rewrite readPosts_eq. simpl. rewrite Hsv. reflexivity.
    + rewrite readPosts_eq, Hsv. reflexivity.
  - rewrite readPosts_eq, Hsv. reflexivity.
  - rewrite readPosts_eq, Hsv. reflexivity.
Qed.

(** X21. [/stats] from an admin, on a store of posts with a writable
    stats file, reports the number of posts, the sum of their views, the
    clock reading and the numbers of images and of videos, which add up
    to the number of posts; the posts file is untouched. A sender who is
    not an admin gets "Admin only command." and nothing is recomputed. *)
Theorem stats_command_report :
  forall (env : option string) (from : Sender) (now : Z) (c : Chat)
         (ps : list Post),
    readPosts (chat_fs c) = (Return (JArray ps), chat_fs c) ->
    writable (stats_file (chat_fs c)) = true ->
    exists (c' : Chat) (images videos : Z),
      stats_command env from now c = (Return tt, c') /\
      posts_file (chat_fs c') = posts_file (chat_fs c) /\
      (isAdmin env from = false ->
       c' = mkChat (chat_fs c) (chat_sent c ++ [AdminOnly])) /\
      (isAdmin env from = true ->
       chat_sent c'
       = (chat_sent c ++
          [StatsReport (Z.of_nat (length ps)) (total_of_views ps)
                       images videos now (username from)])%list /\
       images + videos = Z.of_nat (length ps) /\
       stats_agree (chat_fs c') ps).
Proof.
  intros env from now c ps Hread Hws.
  pose proof Hread as Hsv. rewrite readPosts_eq in Hsv. injection Hsv as Hsv.
  exists (snd (stats_command env from now c)),
         (count_type image ps), (count_type video ps).
  rewrite stats_command_eq, Hsv, Hws. simpl snd.
  split; [reflexivity|].
  destruct (isAdmin env from); simpl negb; cbv iota.
  - split; [apply updateStats_posts_file|]. split; [discriminate|].
    intros _. simpl chat_sent. rewrite sum_views_total.
    split; [reflexivity|]. split; [apply count_types_total|].
    simpl chat_fs. rewrite updateStats_eq, Hsv, Hws. simpl.
    eexists. split; [reflexivity|]. split; [reflexivity|].
    apply sum_views_total.
  - split; [reflexivity|]. split; [reflexivity | discriminate].
Qed.

Lemma stats_command_report_witness :
  exists (c' : Chat) (images videos : Z),
    stats_command None admin 9 (mkChat (fs_of [sunset; old_post; clip]) [])
    = (Return tt, c') /\
    posts_file (chat_fs c') = posts_file (fs_of [sunset; old_post; clip]) /\
    (isAdmin None admin = false ->
     c' = mkChat (fs_of [sunset; old_post; clip]) ([] ++ [AdminOnly])) /\
    (isAdmin None admin = true ->
     chat_sent c'
     = ([] ++
        [StatsReport (Z.of_nat (length [sunset; old_post; clip]))
                     (total_of_views [sunset; old_post; clip])
                     images videos 9 (username admin)])%list /\
     images + videos = Z.of_nat (length [sunset; old_post; clip]) /\
     stats_agree (chat_fs c') [sunset; old_post; clip]).
Proof.
  apply (stats_command_report None admin 9
           (mkChat (fs_of [sunset; old_post; clip]) [])
           [sunset; old_post; clip]); reflexivity.
Defined.

(** X22. [/stats] answers "Error getting statistics" to an admin whenever
    the snapshot cannot be produced: when the posts file holds JSON that
    is not an array, and when the stats file cannot be written, even
    though the posts could be counted. No file is changed. *)
Theorem stats_command_error :
  forall (env : option string) (from : Sender) (now : Z) (c : Chat),
    isAdmin env from = true ->
    (forall ps, fst (readPosts (chat_fs c)) <> Return (JArray ps)) \/
    writable (stats_file (chat_fs c)) = false ->
    stats_command env from now c
    = (Return tt, mkChat (chat_fs c) (chat_sent c ++ [StatsError])).
Proof.
  intros env from now c Ha H. rewrite stats_command_eq, Ha. simpl negb.
  cbv iota. rewrite readPosts_eq in H. simpl in H.
  destruct (stored_value (posts_file (chat_fs c))) as [ps| |]; try reflexivity.
  destruct H as [H | ->]; [|reflexivity].
  exfalso. apply (H ps). reflexivity.
Qed.

Lemma stats_command_error_witness :
  stats_command None admin 9
    (mkChat (mkFS (json_file (JArray [sunset]))
                  (readonly_file (JStats (mkStats 0 0 0)))) [])
  = (Return tt,
     mkChat (mkFS (json_file (JArray [sunset]))
                  (readonly_file (JStats (mkStats 0 0 0)))) [StatsError]).
Proof.
  apply (stats_command_error None admin 9
           (mkChat (mkFS (json_file (JArray [sunset]))
                         (readonly_file (JStats (mkStats 0 0 0)))) [])).
  - reflexivity.
  - right. reflexivity.
Defined.

(** ** Time labels *)

Lemma floor_div_range (a u lo hi : Z) :
  0 < u -> lo * u <= a -> a < hi * u ->
  lo <= a / u < hi /\ (a / u) * u <= a < (a / u + 1) * u.
Proof.
  intros Hu Hlo Hhi.
  pose proof (Z.div_mod a u ltac:(lia)) as Hdm.
  pose proof (Z.mod_pos_bound a u Hu) as Hb.
  split; nia.
Qed.

(** X23. The label the server gives to an age: "Just now" below one
    minute, dates in the future included; otherwise the whole number of
    minutes (1 to 59), of hours (1 to 23) or of days (1 and up, with no
    larger unit) that have fully elapsed. *)
Theorem formatTimeAgo_ranges :
  forall now date : Z,
    match formatTimeAgo now date with
    | JustNow => now - date < 60000
    | Minutes n =>
        1 <= n <= 59 /\ n * 60000 <= now - date < (n + 1) * 60000
    | Hours n =>
        1 <= n <= 23 /\ n * 3600000 <= now - date < (n + 1) * 3600000
    | Days n =>
        1 <= n /\ n * 86400000 <= now - date < (n + 1) * 86400000
    | Weeks _ | Months _ | Years _ => False
    end.
Proof.
  intros now date. unfold formatTimeAgo.
  set (diff := now - date).
  change (60 * 1000) with 60000. change (60000 * 60) with 3600000.
  change (3600000 * 24) with 86400000.
  destruct (Z.ltb_spec diff 60000); [assumption|].
  destruct (Z.ltb_spec diff 3600000).
  { destruct (floor_div_range diff 60000 1 60); lia. }
  destruct (Z.ltb_spec diff 86400000).
  { destruct (floor_div_range diff 3600000 1 24); lia. }
  destruct (floor_div_range diff 86400000 1 (diff + 1)); nia.
Qed.

(** X24. The label the browser gives to an age: as on the server up to
    days (1 to 6), then whole weeks (1 to 4), whole 30-day months (1 to
    12, so an age of 360 to 364 days reads "12mo ago") and whole 365-day
    years. *)
Theorem client_formatTimeAgo_ranges :
  forall now date : Z,
    match Client.formatTimeAgo now date with
    | JustNow => now - date < 60000
    | Minutes n =>
        1 <= n <= 59 /\ n * 60000 <= now - date < (n + 1) * 60000
    | Hours n =>
        1 <= n <= 23 /\ n * 3600000 <= now - date < (n + 1) * 3600000
    | Days n =>
        1 <= n <= 6 /\ n * 86400000 <= now - date < (n + 1) * 86400000
    | Weeks n =>
        1 <= n <= 4 /\ n * 604800000 <= now - date < (n + 1) * 604800000
    | Months n =>
        1 <= n <= 12 /\ n * 2592000000 <= now - date < (n + 1) * 2592000000
    | Years n =>
        1 <= n /\ n * 31536000000 <= now - date < (n + 1) * 31536000000
    end.
Proof.
  intros now date. unfold Client.formatTimeAgo.
  set (diff := now - date).
  change (60 * 1000) with 60000. change (60000 * 60) with 3600000.
  change (3600000 * 24) with 86400000.
  change (86400000 * 7) with 604800000.
  change (86400000 * 30) with 2592000000.
  change (86400000 * 365) with 31536000000.
  destruct (Z.ltb_spec diff 60000); [assumption|].
  destruct (Z.ltb_spec diff 3600000).
  { destruct (floor_div_range diff 60000 1 60); lia. }
  destruct (Z.ltb_spec diff 86400000).
  { destruct (floor_div_range diff 3600000 1 24); lia. }
  destruct (Z.ltb_spec diff 604800000).
  { destruct (floor_div_range diff 86400000 1 7); lia. }
  destruct (Z.ltb_spec diff 2592000000).
  { destruct (floor_div_range diff 604800000 1 5); lia. }
  destruct (Z.ltb_spec diff 31536000000).
  { destruct (floor_div_range diff 2592000000 1 13); lia. }
  destruct (floor_div_range diff 31536000000 1 (diff + 1)); nia.
Qed.

Example client_twelve_months :
  Client.formatTimeAgo (364 * 86400000) 0 = Months 12.
Proof. reflexivity. Qed.

(** X25. Server and browser give the same label to every age below one
    week; from one week on the server keeps counting days while the
    browser switches to weeks, months and years. *)
Theorem formatTimeAgo_agree_below_week :
  forall now date : Z,
    (now - date < 604800000 ->
     Client.formatTimeAgo now date = formatTimeAgo now date) /\
    (604800000 <= now - date ->
     formatTimeAgo now date = Days ((now - date) / 86400000) /\
     forall n, Client.formatTimeAgo now date <> Days n).
Proof.
  intros now date. unfold Client.formatTimeAgo, formatTimeAgo.
  set (diff := now - date).
  change (60 * 1000) with 60000. change (60000 * 60) with 3600000.
  change (3600000 * 24) with 86400000.
  change (86400000 * 7) with 604800000.
  change (86400000 * 30) with 2592000000.
  change (86400000 * 365) with 31536000000.
  split; intros H.
  - destruct (Z.ltb_spec diff 60000); [reflexivity|].
    destruct (Z.ltb_spec diff 3600000); [reflexivity|].
    destruct (Z.ltb_spec diff 86400000); [reflexivity|].
    destruct (Z.ltb_spec diff 604800000); [reflexivity|lia].
  - destruct (Z.ltb_spec diff 60000); [lia|].
    destruct (Z.ltb_spec diff 3600000); [lia|].
    destruct (Z.ltb_spec diff 86400000); [lia|].
    destruct (Z.ltb_spec diff 604800000); [lia|].
    split; [reflexivity|]. intros n.
    destruct (diff <? 2592000000); [discriminate|].
    destruct (diff <? 31536000000); discriminate.
Qed.

Lemma formatTimeAgo_agree_below_week_witness :
  Client.formatTimeAgo 1700000300000 1700000000000
  = formatTimeAgo 1700000300000 1700000000000 /\
  formatTimeAgo 1800000000000 1700000000000
  = Days ((1800000000000 - 1700000000000) / 86400000).
Proof.
  destruct (formatTimeAgo_agree_below_week 1700000300000 1700000000000)
    as [Hsame _].
  destruct (formatTimeAgo_agree_below_week 1800000000000 1700000000000)
    as [_ Hdays].
  split.
  - apply Hsame. lia.
  - apply Hdays. lia.
Defined.

(** ** The browser's filters and pages *)

Lemma filter_video_not_image (l : list Post) :
  filter (fun post => post_type post = video) l
  = filter (fun post => ~ post_type post = image) l.
Proof.
  apply list_filter_iff. intros p. destruct (post_type p); split; congruence.
Qed.

(** X26. The "image" and "video" filters split the loaded posts in two:
    each keeps the posts of its kind in their order, and together they
    hold every loaded post exactly once. Any filter name other than
    "image", "video" and "latest" shows all loaded posts. *)
Theorem applyFilter_partition :
  forall (allPosts : list Post) (name : string),
    Forall (fun p => post_type p = image) (Client.applyFilter "image" allPosts) /\
    Forall (fun p => post_type p = video) (Client.applyFilter "video" allPosts) /\
    sublist (Client.applyFilter "image" allPosts) allPosts /\
    sublist (Client.applyFilter "video" allPosts) allPosts /\
    Permutation (Client.applyFilter "image" allPosts
                 ++ Client.applyFilter "video" allPosts) allPosts /\
    (name <> "image" -> name <> "video" -> name <> "latest" ->
     Client.applyFilter name allPosts = allPosts).
Proof.
  intros allPosts name.
  change (Client.applyFilter "image" allPosts)
    with (filter (fun post => post_type post = image) allPosts).
  change (Client.applyFilter "video" allPosts)
    with (filter (fun post => post_type post = video) allPosts).
  split; [|split; [|split; [|split; [|split]]]].
  - apply Forall_forall. intros p Hp.
    apply list_elem_of_filter in Hp as [Hp _]. exact Hp.
  - apply Forall_forall. intros p Hp.
    apply list_elem_of_filter in Hp as [Hp _]. exact Hp.
  - apply sublist_filter.
  - apply sublist_filter.
  - rewrite filter_video_not_image. apply filter_app_complement.
  - intros H1 H2 H3. unfold Client.applyFilter.
    apply String.eqb_neq in H1, H2, H3. rewrite H1, H2, H3. reflexivity.
Qed.

(** X27. The "latest" filter shows at most twelve of the loaded posts,
    newest first, each at least as recent as every loaded post it leaves
    out; it is the page the server returns by default for a store
    holding the loaded posts. *)
Theorem applyFilter_latest :
  forall (allPosts : list Post) (now : Z) (fs : FS),
    readPosts fs = (Return (JArray allPosts), fs) ->
    length (Client.applyFilter "latest" allPosts)
    = Nat.min 12 (length allPosts) /\
    StronglySorted newer_or_equal (Client.applyFilter "latest" allPosts) /\
    (exists omitted,
        Permutation (Client.applyFilter "latest" allPosts ++ omitted) allPosts /\
        forall a b,
          a ∈ Client.applyFilter "latest" allPosts -> b ∈ omitted ->
          newer_or_equal a b) /\
    posts_of (match fst (get_posts (mkQuery None None) now fs) with
              | Return r => r
              | Throw _ => ServerError
              end)
    = Client.applyFilter "latest" allPosts.
Proof.
  intros allPosts now fs Hread.
  assert (E : Client.applyFilter "latest" allPosts
              = take 12 (sort_newest_first allPosts)).
  { change (Client.applyFilter "latest" allPosts)
      with (slice (sort_newest_first allPosts) (Num 0) (Num (0 + 12))).
    rewrite slice_window by lia. reflexivity. }
  rewrite E. split.
  { rewrite length_take, (Permutation_length (sort_newest_first_perm allPosts)).
    reflexivity. }
  split; [apply sorted_take; apply sort_newest_first_sorted|]. split.
  { exists (drop 12 (sort_newest_first allPosts)). split.
    - rewrite take_drop. apply sort_newest_first_perm.
    - apply sorted_take_drop. apply sort_newest_first_sorted. }
  destruct (get_posts_array (mkQuery None None) now fs allPosts Hread)
    as (stats & fs' & Hget & _).
  change (JsNumber.parseInt (default "1" (q_page (mkQuery None None))))
    with (Num 1) in Hget.
  change (JsNumber.parseInt (default "12" (q_limit (mkQuery None None))))
    with (Num 12) in Hget.
  destruct (page_window 1 12) as [Hstart Hend];
    [lia | lia | reflexivity | reflexivity |].
  rewrite Hstart, Hend in Hget.
  rewrite slice_window in Hget by lia.
  rewrite Hget. reflexivity.
Qed.

Lemma applyFilter_latest_witness :
  length (Client.applyFilter "latest" [old_post; sunset; clip])
  = Nat.min 12 (length [old_post; sunset; clip]) /\
  StronglySorted newer_or_equal
    (Client.applyFilter "latest" [old_post; sunset; clip]) /\
  (exists omitted,
      Permutation (Client.applyFilter "latest" [old_post; sunset; clip] ++ omitted)
                  [old_post; sunset; clip] /\
      forall a b,
        a ∈ Client.applyFilter "latest" [old_post; sunset; clip] ->
        b ∈ omitted -> newer_or_equal a b) /\
  posts_of (match fst (get_posts (mkQuery None None) 10
                         (fs_of [old_post; sunset; clip])) with
            | Return r => r
            | Throw _ => ServerError
            end)
  = Client.applyFilter "latest" [old_post; sunset; clip].
Proof.
  apply (applyFilter_latest [old_post; sunset; clip] 10
           (fs_of [old_post; sunset; clip])).
  reflexivity.
Defined.
